(** * Radicale: storage locking and the storage hook

    A shallow embedding of [radicale/storage/multifilesystem/lock.py]:
    [CollectionLockMixin._acquire_cache_lock] and
    [StorageLockMixin.acquire_lock].

    The Python code is effectful: it takes file locks, creates directories,
    spawns a subprocess and logs.  The embedding threads a [world] (the lock
    table, the directories and lock files created so far, and the trace of
    calls made to the collaborators) through a state-and-exception monad;
    the answers of the collaborators (does the lock fail, what does the
    subprocess print, is the wait interrupted, ...) are read from an [env]. *)

From Stdlib Require Import String Ascii ZArith List Bool Lia.
From stdpp Require Import base gmap sets strings.
Import ListNotations.

Local Open Scope string_scope.
Local Open Scope Z_scope.

(** ** Python values *)

(** Exceptions that travel through the two methods. *)
Inductive exn : Type :=
| ValueError (msg : string)
| KeyError (key : string)
| CalledProcessError (returncode : option Z) (cmd : string)
| Raised (cls : string).
  (* [Raised cls]: an exception of class [cls] raised by a collaborator
     (KeyboardInterrupt, OSError, RuntimeError, ...) *)

Inductive result (A : Type) : Type :=
| Ret (a : A)
| Raise (e : exn).
Arguments Ret {A} a.
Arguments Raise {A} e.

Definition result_map {A B} (f : A -> B) (r : result A) : result B :=
  match r with
  | Ret a => Ret (f a)
  | Raise e => Raise e
  end.

(** Truth value of a [str]: only the empty string is false. *)
Definition str_truthy (s : string) : bool :=
  match s with
  | EmptyString => false
  | String _ _ => true
  end.

(** [x or d] for [x : Optional[str]]: [None] and the empty string are false. *)
Definition py_or (x : option string) (d : string) : string :=
  match x with
  | Some s => if str_truthy s then s else d
  | None => d
  end.

(** ** [shlex.quote] *)

Module shlex.

Definition in_range (lo hi : nat) (c : ascii) : bool :=
  (lo <=? nat_of_ascii c)%nat && (nat_of_ascii c <=? hi)%nat.

(** The characters outside the class [[^\w@%+=:,./-]] (with [re.ASCII]). *)
Definition safe_char (c : ascii) : bool :=
  in_range 97 122 c || in_range 65 90 c || in_range 48 57 c
  || existsb (Ascii.eqb c)
       ["_"; "@"; "%"; "+"; "="; ":"; ","; "."; "/"; "-"]%char.

Fixpoint find_unsafe (s : string) : bool :=
  match s with
  | EmptyString => false
  | String c s' => negb (safe_char c) || find_unsafe s'
  end.

Definition squote : ascii := ascii_of_nat 39.
Definition dquote : ascii := ascii_of_nat 34.

(** [s.replace("'", "'\"'\"'")] *)
Fixpoint replace_squote (s : string) : string :=
  match s with
  | EmptyString => EmptyString
  | String c s' =>
      if Ascii.eqb c squote
      then String squote (String dquote (String squote (String dquote
             (String squote (replace_squote s')))))
      else String c (replace_squote s')
  end.

Definition quote (s : string) : string :=
  if negb (str_truthy s) then String squote (String squote EmptyString)
  else if negb (find_unsafe s) then s
  else String squote (replace_squote s ++ String squote EmptyString).

End shlex.

(** ** [hook % {"user": value}] *)

Section Format.

(** Python's [%] knows many conversions; the hook template uses
    [%(user)s].  Literal text, [%%], [%(key)s], the [KeyError] of an
    unknown key and the [ValueError] of a template that ends inside a
    conversion are written out below.  Every other conversion (flags,
    widths, [%(user)r], a conversion without key, ...) is left to
    [other_conversion keyed rest value], which receives the template from
    that conversion's first character on and formats all that remains. *)
Variable other_conversion : bool -> string -> string -> result string.

Inductive fmt_state : Type :=
| Text
| Percent
| Key (depth : nat) (key : string)
| Conv.

Definition snoc (s : string) (c : ascii) : string :=
  s ++ String c EmptyString.

Fixpoint format_from (st : fmt_state) (fmt : string) (value : string)
  : result string :=
  match fmt with
  | EmptyString =>
      match st with
      | Text => Ret EmptyString
      | Key _ _ => Raise (ValueError "incomplete format key")
      | Percent | Conv => Raise (ValueError "incomplete format")
      end
  | String c rest =>
      match st with
      | Text =>
          if Ascii.eqb c "%" then format_from Percent rest value
          else result_map (String c) (format_from Text rest value)
      | Percent =>
          if Ascii.eqb c "%"
          then result_map (String "%") (format_from Text rest value)
          else if Ascii.eqb c "("
          then format_from (Key 1 EmptyString) rest value
          else other_conversion false fmt value
      | Key depth key =>
          if Ascii.eqb c ")" then
            match depth with
            | 1%nat =>
                if String.eqb key "user" then format_from Conv rest value
                else Raise (KeyError key)
            | _ => format_from (Key (Nat.pred depth) (snoc key c)) rest value
            end
          else if Ascii.eqb c "("
          then format_from (Key (S depth) (snoc key c)) rest value
          else format_from (Key depth (snoc key c)) rest value
      | Conv =>
          if Ascii.eqb c "s"
          then result_map (String.append value) (format_from Text rest value)
          else other_conversion true fmt value
      end
  end.

(** [fmt % {"user": value}] *)
Definition py_format (fmt value : string) : result string :=
  format_from Text fmt value.

End Format.

(** A template without conversions. *)
Fixpoint no_percent (s : string) : bool :=
  match s with
  | EmptyString => true
  | String c s' => negb (Ascii.eqb c "%") && no_percent s'
  end.

(** ** [os.path.join] *)

Fixpoint startswith (s prefix : string) : bool :=
  match prefix, s with
  | EmptyString, _ => true
  | String p prefix', String c s' => Ascii.eqb c p && startswith s' prefix'
  | String _ _, EmptyString => false
  end.

Fixpoint endswith_char (s : string) (c : ascii) : bool :=
  match s with
  | EmptyString => false
  | String d EmptyString => Ascii.eqb d c
  | String _ s' => endswith_char s' c
  end.

(** [posixpath.join(a, b)], the [os.path.join] of a POSIX host (the
    separator of the layout [<root>/<collection>/.Radicale.cache/...]). *)
Definition os_path_join (a b : string) : string :=
  if startswith b "/" then b
  else if negb (str_truthy a) || endswith_char a "/" then a ++ b
  else a ++ "/" ++ b.

(** ** The collaborators and the world *)

(** [mode] of a lock: ["r"] or ["w"]. *)
Inductive lock_mode : Type := Read | Write.

Definition mode_eqb (a b : lock_mode) : bool :=
  match a, b with
  | Read, Read | Write, Write => true
  | _, _ => false
  end.

(** [os.name] *)
Inductive os : Type := posix | nt | other_os.

Definition os_eqb (a b : os) : bool :=
  match a, b with
  | posix, posix | nt, nt | other_os, other_os => true
  | _, _ => false
  end.

(** [subprocess.DEVNULL] and [subprocess.PIPE] *)
Inductive stream : Type := DEVNULL | PIPE.

Inductive preexec : Type := setpgrp.
Inductive creation_flag : Type := CREATE_NEW_PROCESS_GROUP.
Inductive signal : Type := SIGKILL.

(** The keyword arguments [acquire_lock] passes to [subprocess.Popen];
    [None] is a key that is not set. *)
Record popen_kwargs : Type := {
  stdin : stream;
  stdout : stream;
  stderr : stream;
  shell : bool;
  universal_newlines : bool;
  cwd : string;
  pass_fds : option (list Z);
  preexec_fn : option preexec;
  creationflags : option creation_flag
}.

(** A [subprocess.Popen] object. *)
Record popen : Type := {
  pid : Z;
  args : string;
  kwargs : popen_kwargs;
  returncode : option Z
}.

(** The open lock file a held lock hands to the [with] body. *)
Record lock_file : Type := {
  lf_path : string;
  fileno : Z
}.

(** Calls made to the collaborators, in the order they are made. *)
Inductive event : Type :=
| LockAcquired (path : string) (mode : lock_mode)
| LockReleased (path : string) (mode : lock_mode)
| MakedirsSynced (path : string)
| LogDebug (msg : string)
| LogWarning (msg : string)
| Popen (command : string) (kw : popen_kwargs) (spawned : option Z)
| Communicate (p : Z) (completed : bool)
| Terminate (p : Z)
| Wait (p : Z)
| Killpg (pgid : Z) (sig : signal).

Record world : Type := {
  trace : list event;
  (** lock files that are locked now, most recent first *)
  held : list (string * lock_mode);
  dirs : gset string;
  files : gset string;
  next_fd : Z
}.

(** [logging.DEBUG] and [logging.WARNING] *)
Definition DEBUG : Z := 10.
Definition WARNING : Z := 30.

(** What the collaborators answer.  The subprocess and the operating system
    are not part of the program: their behaviour is read from here.  The
    calls that can fail are the ones the source or the spec's error
    taxonomy treat as fallible: taking a lock, creating a directory,
    spawning the hook and waiting for it.  [p.terminate()], [p.wait()] and
    the logger return; [os.killpg] signals the group or raises
    [ProcessLookupError], the two outcomes the source tells apart. *)
Record env : Type := {
  os_name : os;
  (** effective level of [radicale.log.logger] *)
  log_level : Z;
  (** locking the lock file at a path fails with an exception *)
  lock_fails : string -> lock_mode -> option exn;
  (** creating a directory fails with an exception *)
  makedirs_fails : string -> option exn;
  (** [subprocess.Popen(command, ...)]: the pid of the child, or the
      exception of a spawn that fails *)
  spawn : string -> popen_kwargs -> result Z;
  (** [p.communicate()]: what the child wrote to its standard output and
      standard error and its exit status, or the exception that interrupts
      the wait *)
  run : Z -> result (string * string * Z);
  (** exit status [p.wait()] finds after [p.terminate()] *)
  terminated_status : Z -> Z;
  (** processes are left in the group when [os.killpg] is called;
      otherwise [os.killpg] raises [ProcessLookupError] *)
  group_alive : Z -> bool
}.

(** ** State and exception monad *)

Definition M (A : Type) : Type := world -> result A * world.

Definition ret {A} (a : A) : M A := fun w => (Ret a, w).

Definition raise {A} (e : exn) : M A := fun w => (Raise e, w).

Definition bind {A B} (c : M A) (k : A -> M B) : M B :=
  fun w =>
    match c w with
    | (Ret a, w') => k a w'
    | (Raise e, w') => (Raise e, w')
    end.

Declare Scope py_scope.
Delimit Scope py_scope with py.
Notation "x <- c ;; k" := (bind c (fun x => k))
  (at level 100, c at next level, right associativity) : py_scope.
Notation "c ;; k" := (bind c (fun _ => k))
  (at level 100, right associativity) : py_scope.

(** [try: c except BaseException: h], where [h] sees the exception (a bare
    [raise] in it is [raise e]). *)
Definition try_except {A} (c : M A) (h : exn -> M A) : M A :=
  fun w =>
    match c w with
    | (Ret a, w') => (Ret a, w')
    | (Raise e, w') => h e w'
    end.

(** [try: c finally: f]: [f] runs on every way out of [c]; an exception of
    [f] replaces the outcome of [c]. *)
Definition try_finally {A} (c : M A) (f : M unit) : M A :=
  fun w =>
    match c w with
    | (r, w') =>
        match f w' with
        | (Ret _, w'') => (r, w'')
        | (Raise e, w'') => (Raise e, w'')
        end
    end.

(** [try: c except <class>: h else: k]: only exceptions that [catches]
    accepts are handled; [k] runs when [c] raised nothing and is not
    protected by the handler. *)
Definition try_except_else {A B} (c : M A) (catches : exn -> bool)
    (h : M B) (k : A -> M B) : M B :=
  fun w =>
    match c w with
    | (Ret a, w') => k a w'
    | (Raise e, w') => if catches e then h w' else (Raise e, w')
    end.

Definition emit (ev : event) : M unit :=
  fun w =>
    (Ret tt,
     {| trace := trace w ++ [ev]; held := held w; dirs := dirs w;
        files := files w; next_fd := next_fd w |}).

Local Open Scope py_scope.

(** Lifts a pure computation that may raise. *)
Definition lift {A} (r : result A) : M A := fun w => (r, w).

Section Program.

Variable E : env.
Variable other_conversion : bool -> string -> string -> result string.

(** *** [radicale.log.logger] *)

Definition isEnabledFor (level : Z) : bool := log_level E <=? level.

Definition logger_debug (msg : string) : M unit :=
  if isEnabledFor DEBUG then emit (LogDebug msg) else ret tt.

Definition logger_warning (msg : string) : M unit :=
  if isEnabledFor WARNING then emit (LogWarning msg) else ret tt.

(** *** [radicale.pathutils.RwLock] *)

(** Modelled from the spec: [pathutils.RwLock], the reader/writer lock on a
    lock file, is not among the source files.  The spec gives its interface:
    [acquire(mode)] yields a scoped handle, the handle exposes the lock's
    current mode and a descriptor that can be passed to a subprocess, and
    releasing the handle unlocks, on every way out of the scope.  The lock
    file is created when the lock is taken (the layout of section 6 of the
    spec).  Locks are told apart by the path of their lock file. *)
Record RwLock : Type := { lock_path : string }.

Definition held_on (path : string) (h : string * lock_mode) : bool :=
  String.eqb (fst h) path.

(** [lock.locked]: the mode the lock is held in, [None] for [""]. *)
Definition locked (l : RwLock) (w : world) : option lock_mode :=
  match List.find (held_on (lock_path l)) (held w) with
  | Some h => Some (snd h)
  | None => None
  end.

Fixpoint unhold (path : string) (mode : lock_mode)
    (hs : list (string * lock_mode)) : list (string * lock_mode) :=
  match hs with
  | [] => []
  | h :: hs' =>
      if held_on path h && mode_eqb (snd h) mode then hs'
      else h :: unhold path mode hs'
  end.

(** Entering [with lock.acquire(mode) as lock_file]. *)
Definition RwLock_enter (l : RwLock) (mode : lock_mode) : M lock_file :=
  fun w =>
    match lock_fails E (lock_path l) mode with
    | Some e => (Raise e, w)
    | None =>
        (Ret {| lf_path := lock_path l; fileno := next_fd w |},
         {| trace := trace w ++ [LockAcquired (lock_path l) mode];
            held := (lock_path l, mode) :: held w;
            dirs := dirs w;
            files := {[lock_path l]} ∪ files w;
            next_fd := next_fd w + 1 |})
    end.

(** Leaving the [with] block. *)
Definition RwLock_exit (l : RwLock) (mode : lock_mode) : M unit :=
  fun w =>
    (Ret tt,
     {| trace := trace w ++ [LockReleased (lock_path l) mode];
        held := unhold (lock_path l) mode (held w);
        dirs := dirs w;
        files := files w;
        next_fd := next_fd w |}).

(** [with lock.acquire(mode) as lock_file: body] *)
Definition with_lock {A} (l : RwLock) (mode : lock_mode)
    (body : lock_file -> M A) : M A :=
  lock_file <- RwLock_enter l mode ;;
  try_finally (body lock_file) (RwLock_exit l mode).

(** The scoped resources [_acquire_cache_lock] returns. *)
Inductive context_manager : Type :=
| ExitStack
  (* [contextlib.ExitStack()]: nothing is entered, nothing is released *)
| RwLock_acquire (l : RwLock) (mode : lock_mode).
  (* [l.acquire(mode)], not entered yet *)

(** [with cm: body] *)
Definition with_ {A} (cm : context_manager) (body : M A) : M A :=
  match cm with
  | ExitStack => body
  | RwLock_acquire l mode => with_lock l mode (fun _ => body)
  end.

(** *** The storage *)

Record configuration : Type := {
  filesystem_folder : string;   (* ("storage", "filesystem_folder") *)
  hook : string                 (* ("storage", "hook") *)
}.

Record storage : Type := {
  storage_configuration : configuration;
  _lock : RwLock
}.

Record collection : Type := {
  _filesystem_path : string;
  _storage : storage
}.

(** Modelled from the spec: [Storage._makedirs_synced], the storage layer's
    directory-creation primitive, is not among the source files.  It makes
    sure the directory exists, creating it durably, and is silent when the
    directory is there already. *)
Definition _makedirs_synced (path : string) : M unit :=
  fun w =>
    match makedirs_fails E path with
    | Some e => (Raise e, w)
    | None =>
        (Ret tt,
         {| trace := trace w ++ [MakedirsSynced path];
            held := held w;
            dirs := {[path]} ∪ dirs w;
            files := files w;
            next_fd := next_fd w |})
    end.

(** *** [subprocess] and [os] *)

Definition subprocess_Popen (command : string) (kw : popen_kwargs) : M popen :=
  match spawn E command kw with
  | Ret child =>
      emit (Popen command kw (Some child)) ;;
      ret {| pid := child; args := command; kwargs := kw;
             returncode := None |}
  | Raise e => emit (Popen command kw None) ;; raise e
  end.

(** What [communicate] returns for a stream: its text when it is a pipe,
    [None] otherwise. *)
Definition captured (s : stream) (data : string) : option string :=
  match s with
  | PIPE => Some data
  | DEVNULL => None
  end.

Definition set_returncode (p : popen) (status : Z) : popen :=
  {| pid := pid p; args := args p; kwargs := kwargs p;
     returncode := Some status |}.

(** [p.communicate()]: waits for the child and drains its pipes. *)
Definition communicate (p : popen)
  : M (option string * option string * popen) :=
  match run E (pid p) with
  | Ret (out, err, status) =>
      emit (Communicate (pid p) true) ;;
      ret (captured (stdout (kwargs p)) out,
           captured (stderr (kwargs p)) err,
           set_returncode p status)
  | Raise e => emit (Communicate (pid p) false) ;; raise e
  end.

Definition terminate (p : popen) : M unit := emit (Terminate (pid p)).

Definition wait (p : popen) : M popen :=
  emit (Wait (pid p)) ;;
  ret (set_returncode p (terminated_status E (pid p))).

Definition ProcessLookupError : exn := Raised "ProcessLookupError".

Definition is_ProcessLookupError (e : exn) : bool :=
  match e with
  | Raised cls => String.eqb cls "ProcessLookupError"
  | _ => false
  end.

Definition os_killpg (pgid : Z) (sig : signal) : M unit :=
  emit (Killpg pgid sig) ;;
  if group_alive E pgid then ret tt else raise ProcessLookupError.

(** ** [CollectionLockMixin] *)

Definition newline : string := String (ascii_of_nat 10) EmptyString.

(** Truth value of an [Optional[str]]. *)
Definition data_truthy (d : option string) : bool :=
  match d with
  | Some s => str_truthy s
  | None => false
  end.

Definition data_text (d : option string) : string :=
  match d with
  | Some s => s
  | None => "None"
  end.

Definition cache_folder_of (self : collection) : string :=
  os_path_join (_filesystem_path self) ".Radicale.cache".

(** [".Radicale.lock" + (".%s" % ns if ns else "")] *)
Definition cache_lock_name (ns : string) : string :=
  ".Radicale.lock" ++ (if str_truthy ns then "." ++ ns else EmptyString).

Definition _acquire_cache_lock (self : collection) (ns : string)
  : M context_manager :=
  fun w =>
    if match locked (_lock (_storage self)) w with
       | Some Write => true
       | _ => false
       end
    then ret ExitStack w
    else
      (let cache_folder := cache_folder_of self in
       _makedirs_synced cache_folder ;;
       let lock_path := os_path_join cache_folder (cache_lock_name ns) in
       let lock := {| lock_path := lock_path |} in
       ret (RwLock_acquire lock Write)) w.

(** ** [StorageLockMixin] *)

(** [StorageLockMixin.__init__] *)
Definition StorageLockMixin_init (c : configuration) : storage :=
  let folder := filesystem_folder c in
  let lock_path := os_path_join folder ".Radicale.lock" in
  {| storage_configuration := c; _lock := {| lock_path := lock_path |} |}.

Definition set_pass_fds (kw : popen_kwargs) (fds : list Z) : popen_kwargs :=
  {| stdin := stdin kw; stdout := stdout kw; stderr := stderr kw;
     shell := shell kw; universal_newlines := universal_newlines kw;
     cwd := cwd kw; pass_fds := Some fds; preexec_fn := preexec_fn kw;
     creationflags := creationflags kw |}.

Definition set_preexec_fn (kw : popen_kwargs) (f : preexec) : popen_kwargs :=
  {| stdin := stdin kw; stdout := stdout kw; stderr := stderr kw;
     shell := shell kw; universal_newlines := universal_newlines kw;
     cwd := cwd kw; pass_fds := pass_fds kw; preexec_fn := Some f;
     creationflags := creationflags kw |}.

Definition set_creationflags (kw : popen_kwargs) (f : creation_flag)
  : popen_kwargs :=
  {| stdin := stdin kw; stdout := stdout kw; stderr := stderr kw;
     shell := shell kw; universal_newlines := universal_newlines kw;
     cwd := cwd kw; pass_fds := pass_fds kw; preexec_fn := preexec_fn kw;
     creationflags := Some f |}.

(** The keyword arguments built in lines 57-76 of lock.py. *)
Definition hook_popen_kwargs (self : storage) (lock_file : lock_file)
  : popen_kwargs :=
  let folder := filesystem_folder (storage_configuration self) in
  let debug := isEnabledFor DEBUG in
  let popen_kwargs :=
    {| stdin := DEVNULL;
       stdout := if debug then PIPE else DEVNULL;
       stderr := if debug then PIPE else DEVNULL;
       shell := true; universal_newlines := true; cwd := folder;
       pass_fds := None; preexec_fn := None; creationflags := None |} in
  let popen_kwargs :=
    if os_eqb (os_name E) posix
    then set_pass_fds popen_kwargs [fileno lock_file]
    else popen_kwargs in
  if os_eqb (os_name E) posix then set_preexec_fn popen_kwargs setpgrp
  else if os_eqb (os_name E) nt
  then set_creationflags popen_kwargs CREATE_NEW_PROCESS_GROUP
  else popen_kwargs.

(** [hook % {"user": shlex.quote(user or "Anonymous")}] *)
Definition hook_command (self : storage) (user : option string)
  : result string :=
  py_format other_conversion (hook (storage_configuration self))
    (shlex.quote (py_or user "Anonymous")).

(** The [finally] clause of lines 87-97. *)
Definition kill_remaining (p : popen) : M unit :=
  if os_eqb (os_name E) posix then
    try_except_else (os_killpg (pid p) SIGKILL) is_ProcessLookupError
      (ret tt)
      (fun _ => logger_warning "Killed remaining child processes of hook")
  else ret tt.

(** The code after [yield] (lines 54-103). *)
Definition execute_hook (self : storage) (mode : lock_mode)
    (user : option string) (lock_file : lock_file) : M unit :=
  let hook := hook (storage_configuration self) in
  if mode_eqb mode Write && str_truthy hook then
    let popen_kwargs := hook_popen_kwargs self lock_file in
    command <- lift (hook_command self user) ;;
    logger_debug "Running hook" ;;
    p <- subprocess_Popen command popen_kwargs ;;
    r <- try_finally
           (try_except (communicate p)
              (fun e => terminate p ;; _ <- wait p ;; raise e))
           (kill_remaining p) ;;
    let '(stdout_data, stderr_data, p) := r in
    (if data_truthy stdout_data
     then logger_debug ("Captured stdout hook:" ++ newline
                          ++ data_text stdout_data)
     else ret tt) ;;
    (if data_truthy stderr_data
     then logger_debug ("Captured stderr hook:" ++ newline
                          ++ data_text stderr_data)
     else ret tt) ;;
    match returncode p with
    | Some 0 => ret tt
    | rc => raise (CalledProcessError rc (args p))
    end
  else ret tt.

(** [with self.acquire_lock(mode, user): body].  [acquire_lock] is a
    generator turned into a context manager: [body] runs at the [yield]; an
    exception of [body] is raised at the [yield], inside the [with] of the
    lock. *)
Definition acquire_lock (self : storage) (mode : lock_mode)
    (user : option string) (body : M unit) : M unit :=
  with_lock (_lock self) mode (fun lock_file =>
    body ;;
    execute_hook self mode user lock_file).

End Program.

(** ** Reading traces *)

(** The world after some more calls to the collaborators. *)
Definition log_events (w : world) (evs : list event) : world :=
  {| trace := trace w ++ evs; held := held w; dirs := dirs w;
     files := files w; next_fd := next_fd w |}.

Definition is_spawn (ev : event) : bool :=
  match ev with
  | Popen _ _ _ => true
  | _ => false
  end.

Definition is_release (ev : event) : bool :=
  match ev with
  | LockReleased _ _ => true
  | _ => false
  end.

Definition is_debug_log (ev : event) : bool :=
  match ev with
  | LogDebug _ => true
  | _ => false
  end.

(** The call returned with the child [child] waited on: a [communicate]
    that ran to its end, or a [wait]. *)
Definition reaps (child : Z) (ev : event) : bool :=
  match ev with
  | Communicate p true => p =? child
  | Wait p => p =? child
  | _ => false
  end.

(** The calls to [subprocess.Popen] in a trace. *)
Definition spawns (evs : list event) : list event :=
  List.filter is_spawn evs.

Definition none_of (P : event -> bool) (evs : list event) : bool :=
  forallb (fun ev => negb (P ev)) evs.

(** The events of the hook, as the answers of the collaborators fix them. *)
Definition debug_events (E : env) (msg : string) : list event :=
  if isEnabledFor E DEBUG then [LogDebug msg] else [].

Definition wait_events (E : env) (child : Z) : list event :=
  match run E child with
  | Ret _ => [Communicate child true]
  | Raise _ => [Communicate child false; Terminate child; Wait child]
  end.

Definition cleanup_events (E : env) (child : Z) : list event :=
  if os_eqb (os_name E) posix then
    Killpg child SIGKILL ::
      (if group_alive E child && isEnabledFor E WARNING
       then [LogWarning "Killed remaining child processes of hook"]
       else [])
  else [].

Definition captured_events (E : env) (child : Z) : list event :=
  match run E child with
  | Ret (out, err, _) =>
      (if isEnabledFor E DEBUG && str_truthy out
       then [LogDebug ("Captured stdout hook:" ++ newline ++ out)] else [])
      ++ (if isEnabledFor E DEBUG && str_truthy err
          then [LogDebug ("Captured stderr hook:" ++ newline ++ err)] else [])
  | Raise _ => []
  end.

Definition hook_result (E : env) (cmd : string) (child : Z) : result unit :=
  match run E child with
  | Ret (_, _, status) =>
      if status =? 0 then Ret tt
      else Raise (CalledProcessError (Some status) cmd)
  | Raise e => Raise e
  end.

Definition hook_events (E : env) (cmd : string) (kw : popen_kwargs)
    (child : Z) : list event :=
  debug_events E "Running hook"
  ++ [Popen cmd kw (Some child)]
  ++ wait_events E child
  ++ cleanup_events E child
  ++ captured_events E child.

(** Every child that was spawned is waited on later in the trace. *)
Fixpoint every_spawn_reaped (evs : list event) : bool :=
  match evs with
  | [] => true
  | Popen _ _ (Some child) :: rest =>
      existsb (reaps child) rest && every_spawn_reaped rest
  | _ :: rest => every_spawn_reaped rest
  end.

(** ** The stages of a transaction *)

(** The world in which the body of [with self.acquire_lock(mode, user)]
    starts (the lock has just been taken), the handle it holds, and the
    world in which, and the outcome with which, the body ends. *)
Definition entered (E : env) (l : RwLock) (mode : lock_mode) (w : world)
  : world :=
  snd (RwLock_enter E l mode w).

Definition lock_file_of (l : RwLock) (w : world) : lock_file :=
  {| lf_path := lock_path l; fileno := next_fd w |}.

Definition released (l : RwLock) (mode : lock_mode) (w : world) : world :=
  snd (RwLock_exit l mode w).

Definition body_result (E : env) (self : storage) (mode : lock_mode)
    (body : M unit) (w : world) : result unit :=
  fst (body (entered E (_lock self) mode w)).

Definition after_body (E : env) (self : storage) (mode : lock_mode)
    (body : M unit) (w : world) : world :=
  snd (body (entered E (_lock self) mode w)).

(** The lock file [_acquire_cache_lock] addresses for a namespace. *)
Definition cache_lock_path (self : collection) (ns : string) : string :=
  os_path_join (cache_folder_of self) (cache_lock_name ns).

Definition cache_lock (self : collection) (ns : string) : RwLock :=
  {| lock_path := cache_lock_path self ns |}.

(** ** A storage to run the methods on *)

Definition example_configuration : configuration :=
  {| filesystem_folder := "/srv/radicale";
     hook := "echo %(user)s > out.txt" |}.

Definition example_storage : storage :=
  StorageLockMixin_init example_configuration.

Definition example_collection : collection :=
  {| _filesystem_path := "/srv/radicale/collection-root/alice/calendar";
     _storage := example_storage |}.

Definition example_world : world :=
  {| trace := []; held := []; dirs := ∅; files := ∅; next_fd := 3 |}.

(** A POSIX host on which every lock and directory is available and the
    hook is spawned as process 4711; [level] is the logger's level and
    [outcome] what [communicate] meets. *)
Definition example_env (level : Z) (outcome : result (string * string * Z))
  : env :=
  {| os_name := posix;
     log_level := level;
     lock_fails := fun _ _ => None;
     makedirs_fails := fun _ => None;
     spawn := fun _ _ => Ret 4711;
     run := fun _ => outcome;
     terminated_status := fun _ => -15;
     group_alive := fun _ => false |}.

Definition KeyboardInterrupt : exn := Raised "KeyboardInterrupt".

(** No conversion besides [%(user)s] and [%%] is supported. *)
Definition no_other_conversion (keyed : bool) (rest value : string)
  : result string :=
  Raise (ValueError "unsupported format character").

(** Variants of the example host: the storage lock cannot be taken, the
    cache directory cannot be created, the cache lock cannot be taken, the
    hook cannot be spawned, children of the hook outlive it, and a host
    that is not POSIX. *)
Definition LockError : exn := Raised "RuntimeError".
Definition SpawnError : exn := Raised "FileNotFoundError".
Definition MakedirsError : exn := Raised "PermissionError".

Definition host (name : os) (level : Z)
    (lock_answer : string -> lock_mode -> option exn)
    (makedirs_answer : string -> option exn)
    (spawn_answer : result Z)
    (outcome : result (string * string * Z)) (alive : bool) : env :=
  {| os_name := name;
     log_level := level;
     lock_fails := lock_answer;
     makedirs_fails := makedirs_answer;
     spawn := fun _ _ => spawn_answer;
     run := fun _ => outcome;
     terminated_status := fun _ => -15;
     group_alive := fun _ => alive |}.

Definition is_killpg (ev : event) : bool :=
  match ev with
  | Killpg _ _ => true
  | _ => false
  end.

Definition is_warning (ev : event) : bool :=
  match ev with
  | LogWarning _ => true
  | _ => false
  end.

(** Calls on a child: [communicate], [terminate], [wait], [killpg]. *)
Definition is_child_call (ev : event) : bool :=
  match ev with
  | Communicate _ _ | Terminate _ | Wait _ | Killpg _ _ => true
  | _ => false
  end.

(** No parenthesis, so that the text can stand as a key in [%(key)s]. *)
Fixpoint no_paren (s : string) : bool :=
  match s with
  | EmptyString => true
  | String c s' =>
      negb (Ascii.eqb c "(") && negb (Ascii.eqb c ")") && no_paren s'
  end.

(** The world in which the body of [with self._acquire_cache_lock(ns)]
    starts when the cache lock is taken: the cache directory was created,
    then the cache lock entered. *)
Definition cache_entered (E : env) (self : collection) (ns : string)
    (w : world) : world :=
  entered E (cache_lock self ns) Write
    (snd (_makedirs_synced E (cache_folder_of self) w)).

(** ** Reading a command line as the shell does *)

(** [Popen(command, shell=True)] hands the command line to [/bin/sh -c].
    [sh_tokens] reads a command line by the shell's token rules (POSIX,
    Shell Command Language, 2.2 Quoting and 2.3 Token Recognition) as far as
    a line of words, quotes and redirections needs them: blanks separate
    words; between single quotes every character stands for itself; between
    double quotes every character but the dollar sign, the backquote and
    the backslash does; outside quotes the letters, the digits and
    [_@%+=:,./-] stand for themselves; quoted and unquoted pieces that touch
    make one word; [<] and [>] set off by blanks are redirections.  For
    anything else (expansions, other operators, backslashes, comments, an
    open quote) the answer is [None], so an answer is the shell's own
    reading. *)
Inductive sh_token : Type :=
| Word (text : string)
| Redirect (op : ascii).

Inductive sh_quoting : Type := Unquoted | SingleQuoted | DoubleQuoted.

Definition sh_blank (c : ascii) : bool :=
  Ascii.eqb c " " || Ascii.eqb c (ascii_of_nat 9).

Definition code_between (lo hi : nat) (c : ascii) : bool :=
  (lo <=? nat_of_ascii c)%nat && (nat_of_ascii c <=? hi)%nat.

Definition sh_plain (c : ascii) : bool :=
  code_between 48 57 c || code_between 65 90 c || code_between 97 122 c
  || existsb (Ascii.eqb c)
       ["_"; "@"; "%"; "+"; "="; ":"; ","; "."; "/"; "-"]%char.

Definition sh_redirection (c : ascii) : bool :=
  Ascii.eqb c "<" || Ascii.eqb c ">".

(** Special between double quotes. *)
Definition sh_expands (c : ascii) : bool :=
  Ascii.eqb c "$" || Ascii.eqb c "`" || Ascii.eqb c "\".

(** The word being read: [None] when no word has begun. *)
Definition word_text (cur : option string) : string :=
  match cur with
  | Some text => text
  | None => EmptyString
  end.

Definition word_push (cur : option string) (c : ascii) : option string :=
  Some (snoc (word_text cur) c).

Definition word_open (cur : option string) : option string :=
  Some (word_text cur).

Definition word_end (cur : option string) (rest : list sh_token)
  : list sh_token :=
  match cur with
  | Some text => Word text :: rest
  | None => rest
  end.

Fixpoint sh_read (q : sh_quoting) (cur : option string) (s : string)
  : option (list sh_token) :=
  match s with
  | EmptyString =>
      match q with
      | Unquoted => Some (word_end cur [])
      | SingleQuoted | DoubleQuoted => None
      end
  | String c s' =>
      match q with
      | Unquoted =>
          if sh_blank c
          then option_map (word_end cur) (sh_read Unquoted None s')
          else if Ascii.eqb c shlex.squote
          then sh_read SingleQuoted (word_open cur) s'
          else if Ascii.eqb c shlex.dquote
          then sh_read DoubleQuoted (word_open cur) s'
          else if sh_plain c then sh_read Unquoted (word_push cur c) s'
          else if sh_redirection c then
            match cur, s' with
            | None, String b _ =>
                if sh_blank b
                then option_map (cons (Redirect c)) (sh_read Unquoted None s')
                else None
            | _, _ => None
            end
          else None
      | SingleQuoted =>
          if Ascii.eqb c shlex.squote then sh_read Unquoted cur s'
          else sh_read SingleQuoted (word_push cur c) s'
      | DoubleQuoted =>
          if Ascii.eqb c shlex.dquote then sh_read Unquoted cur s'
          else if sh_expands c then None
          else sh_read DoubleQuoted (word_push cur c) s'
      end
  end.

Definition sh_tokens (command : string) : option (list sh_token) :=
  sh_read Unquoted None command.

(** [echo %(user)s > out.txt] for the user [o'brien; reboot]: the text
    between single quotes, its single quote between double quotes. *)
Definition example_quoted_command : string :=
  "echo 'o'" +:+ String shlex.dquote
    ("'" +:+ String shlex.dquote "'brien; reboot' > out.txt").

(** * Properties *)

Local Open Scope list_scope.

Ltac same_world :=
  unfold log_events, emit, ret, raise, lift; simpl; rewrite <- ?app_assoc; simpl;
  rewrite ?app_nil_r; reflexivity.

Ltac hook_cases :=
  unfold hook_events, debug_events, wait_events, cleanup_events,
    captured_events;
  repeat match goal with
    | |- context [run ?e ?c] => destruct (run e c) as [[[? ?] ?] | ?]
    | |- context [isEnabledFor ?e ?l] => destruct (isEnabledFor e l)
    | |- context [os_eqb ?a ?b] => destruct (os_eqb a b)
    | |- context [group_alive ?e ?c] => destruct (group_alive e c)
    | |- context [str_truthy ?x] => destruct (str_truthy x)
    end;
  simpl; rewrite ?Z.eqb_refl; try reflexivity.

Section Facts.

Variable E : env.
Variable other_conversion : bool -> string -> string -> result string.

Lemma log_events_nil w : log_events w [] = w.
Proof. destruct w; unfold log_events; simpl. by rewrite app_nil_r. Qed.

Lemma log_events_app w a b :
  log_events (log_events w a) b = log_events w (a ++ b).
Proof. unfold log_events; simpl. by rewrite <- app_assoc. Qed.

Lemma emit_log ev w : emit ev w = (Ret tt, log_events w [ev]).
Proof. reflexivity. Qed.

Lemma logger_debug_log msg w :
  logger_debug E msg w = (Ret tt, log_events w (debug_events E msg)).
Proof.
  unfold logger_debug, debug_events.
  destruct (isEnabledFor E DEBUG); [reflexivity |].
  by rewrite log_events_nil.
Qed.

Lemma kill_remaining_log p w :
  kill_remaining E p w = (Ret tt, log_events w (cleanup_events E (pid p))).
Proof.
  unfold kill_remaining, cleanup_events, try_except_else, os_killpg,
    logger_warning, bind.
  destruct (os_eqb (os_name E) posix); simpl.
  - destruct (group_alive E (pid p)); simpl;
      [destruct (isEnabledFor E WARNING) |]; same_world.
  - by rewrite log_events_nil.
Qed.

(** The hook is skipped in read mode and when no hook is configured. *)
Lemma execute_hook_skipped self mode user lf w :
  mode = Read \/ str_truthy (hook (storage_configuration self)) = false ->
  execute_hook E other_conversion self mode user lf w = (Ret tt, w).
Proof.
  unfold execute_hook. intros [-> | ->]; [reflexivity |].
  by rewrite andb_false_r.
Qed.

(** A template that does not format raises before anything is run. *)
Lemma execute_hook_format_error self user lf w e :
  str_truthy (hook (storage_configuration self)) = true ->
  hook_command other_conversion self user = Raise e ->
  execute_hook E other_conversion self Write user lf w = (Raise e, w).
Proof.
  unfold execute_hook. intros -> Hcmd. simpl.
  unfold bind, lift. by rewrite Hcmd.
Qed.

(** A spawn that fails: one call to [Popen], nothing to wait for. *)
Lemma execute_hook_spawn_error self user lf w cmd e :
  str_truthy (hook (storage_configuration self)) = true ->
  hook_command other_conversion self user = Ret cmd ->
  spawn E cmd (hook_popen_kwargs E self lf) = Raise e ->
  execute_hook E other_conversion self Write user lf w
  = (Raise e,
     log_events w (debug_events E "Running hook"
                     ++ [Popen cmd (hook_popen_kwargs E self lf) None])).
Proof.
  unfold execute_hook. intros -> Hcmd Hspawn. simpl.
  unfold bind at 1, lift. rewrite Hcmd.
  unfold bind at 1. rewrite logger_debug_log.
  unfold bind at 1, subprocess_Popen. rewrite Hspawn.
  unfold bind. rewrite emit_log, log_events_app. reflexivity.
Qed.

Lemma logger_debug_captured (label : string) (s : stream) (data : string) w :
  (if data_truthy (captured s data)
   then logger_debug E (label +:+ newline +:+ data_text (captured s data))
   else ret tt) w
  = (Ret tt,
     log_events w
       (match s with
        | PIPE =>
            if isEnabledFor E DEBUG && str_truthy data
            then [LogDebug (label +:+ newline +:+ data)] else []
        | DEVNULL => []
        end)).
Proof.
  destruct s; simpl.
  - unfold ret. by rewrite log_events_nil.
  - destruct (str_truthy data); simpl.
    + rewrite logger_debug_log. unfold debug_events.
      by rewrite andb_true_r.
    + unfold ret. by rewrite andb_false_r, log_events_nil.
Qed.

(** The streams of the hook: pipes exactly when debug logging is on. *)
Lemma hook_streams self lf :
  stdin (hook_popen_kwargs E self lf) = DEVNULL
  /\ stdout (hook_popen_kwargs E self lf)
     = (if isEnabledFor E DEBUG then PIPE else DEVNULL)
  /\ stderr (hook_popen_kwargs E self lf)
     = (if isEnabledFor E DEBUG then PIPE else DEVNULL).
Proof.
  unfold hook_popen_kwargs.
  destruct (os_eqb (os_name E) posix), (os_eqb (os_name E) nt); simpl; auto.
Qed.

(** A hook that is spawned: the outcome and the calls made. *)
Lemma execute_hook_runs self user lf w cmd child :
  str_truthy (hook (storage_configuration self)) = true ->
  hook_command other_conversion self user = Ret cmd ->
  spawn E cmd (hook_popen_kwargs E self lf) = Ret child ->
  execute_hook E other_conversion self Write user lf w
  = (hook_result E cmd child,
     log_events w (hook_events E cmd (hook_popen_kwargs E self lf) child)).
Proof.
  unfold execute_hook. intros -> Hcmd Hspawn. simpl.
  unfold bind at 1, lift. rewrite Hcmd.
  unfold bind at 1. rewrite logger_debug_log.
  unfold bind at 1, subprocess_Popen. rewrite Hspawn.
  unfold bind at 1. rewrite emit_log, log_events_app.
  unfold ret at 1.
  unfold bind at 1, try_finally, try_except, communicate.
  unfold hook_events, hook_result, wait_events, captured_events.
  cbn [pid args kwargs returncode].
  destruct (hook_streams self lf) as (_ & Hout & Herr).
  destruct (run E child) as [[[out err] status] | e].
  - unfold bind at 1. rewrite emit_log, log_events_app. unfold ret at 1.
    rewrite kill_remaining_log, log_events_app.
    cbn [pid args kwargs returncode set_returncode].
    unfold bind at 1. rewrite logger_debug_captured, log_events_app.
    unfold bind at 1. rewrite logger_debug_captured, log_events_app.
    rewrite Hout, Herr.
    destruct (isEnabledFor E DEBUG); simpl;
      destruct status; unfold ret, raise; simpl; f_equal;
      rewrite <- ?app_assoc; simpl; rewrite ?app_nil_r; reflexivity.
  - unfold bind at 1. rewrite emit_log, log_events_app.
    unfold raise at 1, bind at 1, terminate.
    rewrite emit_log, log_events_app.
    unfold bind at 1, wait, bind at 1.
    rewrite emit_log, log_events_app. unfold ret at 1, raise at 1.
    rewrite kill_remaining_log, log_events_app.
    cbn [pid]. f_equal. f_equal.
    rewrite <- ?app_assoc; simpl; rewrite ?app_nil_r; reflexivity.
Qed.

(** *** The lock around the body *)

Lemma with_lock_entered {A} l mode (body : lock_file -> M A) w :
  lock_fails E (lock_path l) mode = None ->
  with_lock E l mode body w
  = (fst (body (lock_file_of l w) (entered E l mode w)),
     released l mode (snd (body (lock_file_of l w) (entered E l mode w)))).
Proof.
  intros Hlock.
  unfold with_lock, bind, try_finally, entered, released, lock_file_of,
    RwLock_enter.
  rewrite Hlock. cbn [fst snd].
  destruct (body _ _) as [r w']. reflexivity.
Qed.

Lemma with_lock_fails {A} l mode (body : lock_file -> M A) w e :
  lock_fails E (lock_path l) mode = Some e ->
  with_lock E l mode body w = (Raise e, w).
Proof.
  intros Hlock. unfold with_lock, bind, RwLock_enter. by rewrite Hlock.
Qed.

Lemma trace_released l mode w :
  trace (released l mode w) = trace w ++ [LockReleased (lock_path l) mode].
Proof. reflexivity. Qed.

Lemma trace_entered l mode w :
  lock_fails E (lock_path l) mode = None ->
  trace (entered E l mode w) = trace w ++ [LockAcquired (lock_path l) mode].
Proof. intros Hlock. unfold entered, RwLock_enter. by rewrite Hlock. Qed.

Lemma mode_eqb_refl mode : mode_eqb mode mode = true.
Proof. by destruct mode. Qed.

Lemma locked_entered l mode w :
  lock_fails E (lock_path l) mode = None ->
  locked l (entered E l mode w) = Some mode.
Proof.
  intros Hlock. unfold entered, RwLock_enter, locked. rewrite Hlock.
  simpl. unfold held_on. simpl. by rewrite String.eqb_refl.
Qed.

(** Releasing undoes taking the lock when the body left the lock table as
    it found it. *)
Lemma held_released_entered l mode w w' :
  lock_fails E (lock_path l) mode = None ->
  held w' = held (entered E l mode w) ->
  held (released l mode w') = held w.
Proof.
  intros Hlock Hheld. unfold released, RwLock_exit. simpl. rewrite Hheld.
  unfold entered, RwLock_enter. rewrite Hlock. simpl.
  unfold held_on. simpl. by rewrite String.eqb_refl, mode_eqb_refl.
Qed.

(** A transaction whose lock was taken, by the outcome of its body. *)
Lemma acquire_lock_body_returns self mode user body w :
  lock_fails E (lock_path (_lock self)) mode = None ->
  body_result E self mode body w = Ret tt ->
  acquire_lock E other_conversion self mode user body w
  = (fst (execute_hook E other_conversion self mode user
            (lock_file_of (_lock self) w) (after_body E self mode body w)),
     released (_lock self) mode
       (snd (execute_hook E other_conversion self mode user
               (lock_file_of (_lock self) w)
               (after_body E self mode body w)))).
Proof.
  intros Hlock Hbody. unfold acquire_lock.
  rewrite with_lock_entered by done.
  unfold body_result, after_body in *. unfold bind.
  destruct (body _) as [r w']. simpl in Hbody. subst r. reflexivity.
Qed.

Lemma acquire_lock_body_raises self mode user body w e :
  lock_fails E (lock_path (_lock self)) mode = None ->
  body_result E self mode body w = Raise e ->
  acquire_lock E other_conversion self mode user body w
  = (Raise e, released (_lock self) mode (after_body E self mode body w)).
Proof.
  intros Hlock Hbody. unfold acquire_lock.
  rewrite with_lock_entered by done.
  unfold body_result, after_body in *. unfold bind.
  destruct (body _) as [r w']. simpl in Hbody. subst r. reflexivity.
Qed.

(** *** The events of the hook *)

Lemma hook_events_no_release cmd kw child :
  none_of is_release (hook_events E cmd kw child) = true.
Proof. unfold none_of. hook_cases. Qed.

Lemma hook_events_reaped cmd kw child :
  every_spawn_reaped (hook_events E cmd kw child) = true.
Proof. hook_cases. Qed.

Lemma hook_events_one_spawn cmd kw child :
  spawns (hook_events E cmd kw child) = [Popen cmd kw (Some child)].
Proof. unfold spawns. hook_cases. Qed.

Lemma spawns_app a b : spawns (a ++ b) = spawns a ++ spawns b.
Proof. apply List.filter_app. Qed.

(** *** Formatting the command *)

Lemma format_text s v :
  no_percent s = true -> py_format other_conversion s v = Ret s.
Proof.
  unfold py_format. induction s as [| c s IH]; simpl; [reflexivity |].
  intros [Hc Hs]%andb_prop. destruct (Ascii.eqb c "%"); [discriminate |].
  by rewrite IH.
Qed.

Lemma append_cons c s t : String c s +:+ t = String c (s +:+ t).
Proof. reflexivity. Qed.

Lemma format_prefix pre rest v :
  no_percent pre = true ->
  py_format other_conversion (pre +:+ rest) v
  = result_map (String.append pre) (py_format other_conversion rest v).
Proof.
  unfold py_format. induction pre as [| c pre IH]; intros Hpre.
  - change (EmptyString +:+ rest) with rest.
    by destruct (format_from other_conversion Text rest v).
  - rewrite append_cons. simpl in Hpre |- *.
    apply andb_prop in Hpre as [Hc Hpre].
    destruct (Ascii.eqb c "%"); [discriminate |].
    rewrite (IH Hpre).
    by destruct (format_from other_conversion Text rest v).
Qed.

Lemma format_substitutes pre post v :
  no_percent pre = true -> no_percent post = true ->
  py_format other_conversion (pre +:+ "%(user)s" +:+ post) v
  = Ret (pre +:+ v +:+ post).
Proof.
  intros Hpre Hpost. rewrite format_prefix by done.
  change ("%(user)s" +:+ post)
    with (String "%" (String "(" (String "u" (String "s" (String "e"
            (String "r" (String ")" (String "s" post)))))))).
  unfold py_format. simpl. fold (py_format other_conversion post v).
  by rewrite format_text.
Qed.

(** A write transaction whose body returned and whose hook was spawned. *)
Lemma acquire_lock_hook_runs self user body w cmd child :
  lock_fails E (lock_path (_lock self)) Write = None ->
  str_truthy (hook (storage_configuration self)) = true ->
  body_result E self Write body w = Ret tt ->
  hook_command other_conversion self user = Ret cmd ->
  spawn E cmd (hook_popen_kwargs E self (lock_file_of (_lock self) w))
  = Ret child ->
  acquire_lock E other_conversion self Write user body w
  = (hook_result E cmd child,
     released (_lock self) Write
       (log_events (after_body E self Write body w)
          (hook_events E cmd
             (hook_popen_kwargs E self (lock_file_of (_lock self) w))
             child))).
Proof.
  intros Hlock Hhook Hbody Hcmd Hspawn.
  rewrite acquire_lock_body_returns by done.
  by rewrite (execute_hook_runs self user _ _ cmd child).
Qed.

End Facts.

(** * The two methods *)

(** C7.  When the body of a transaction raises, the exception leaves
    [acquire_lock] unchanged, the only call made after the body is the
    release of the lock, and so the hook is not run; this holds in either
    mode and whatever hook is configured. *)
Theorem body_exception_releases_without_hook
    (E : env) oc (self : storage) (mode : lock_mode) (user : option string)
    (body : M unit) (w : world) (e : exn) :
  lock_fails E (lock_path (_lock self)) mode = None ->
  body_result E self mode body w = Raise e ->
  fst (acquire_lock E oc self mode user body w) = Raise e
  /\ trace (snd (acquire_lock E oc self mode user body w))
     = trace (after_body E self mode body w)
       ++ [LockReleased (lock_path (_lock self)) mode]
  /\ spawns (trace (snd (acquire_lock E oc self mode user body w)))
     = spawns (trace (after_body E self mode body w))
  /\ (held (after_body E self mode body w)
      = held (entered E (_lock self) mode w) ->
      held (snd (acquire_lock E oc self mode user body w)) = held w).
Proof.
  intros Hlock Hbody.
  rewrite (acquire_lock_body_raises E oc self mode user body w e Hlock Hbody).
  cbn [fst snd]. rewrite trace_released. repeat split.
  - rewrite spawns_app. simpl. by rewrite app_nil_r.
  - intros Hheld. by apply (held_released_entered E).
Qed.

Lemma body_exception_releases_without_hook_witness :
  fst (acquire_lock (example_env DEBUG (Ret ("", "", 0))) no_other_conversion
         example_storage Write (Some "alice") (raise KeyboardInterrupt)
         example_world)
  = Raise KeyboardInterrupt
  /\ trace (snd (acquire_lock (example_env DEBUG (Ret ("", "", 0)))
                   no_other_conversion example_storage Write (Some "alice")
                   (raise KeyboardInterrupt) example_world))
     = [LockAcquired "/srv/radicale/.Radicale.lock" Write;
        LockReleased "/srv/radicale/.Radicale.lock" Write].
Proof.
  destruct (body_exception_releases_without_hook
              (example_env DEBUG (Ret ("", "", 0))) no_other_conversion
              example_storage Write (Some "alice") (raise KeyboardInterrupt)
              example_world KeyboardInterrupt eq_refl eq_refl)
    as (Hres & Htrace & _).
  split; [exact Hres | exact Htrace].
Defined.


(** C8.  In read mode, and in write mode with an empty hook setting, a
    transaction is the lock around the body and nothing else: after the body
    only the lock is released, no subprocess is spawned. *)
Theorem no_hook_in_read_mode_or_without_hook
    (E : env) oc (self : storage) (mode : lock_mode) (user : option string)
    (body : M unit) (w : world) :
  mode = Read \/ str_truthy (hook (storage_configuration self)) = false ->
  acquire_lock E oc self mode user body w
  = with_lock E (_lock self) mode (fun _ => body) w
  /\ (lock_fails E (lock_path (_lock self)) mode = None ->
      trace (snd (acquire_lock E oc self mode user body w))
      = trace (after_body E self mode body w)
        ++ [LockReleased (lock_path (_lock self)) mode])
  /\ (forall e, lock_fails E (lock_path (_lock self)) mode = Some e ->
      snd (acquire_lock E oc self mode user body w) = w).
Proof.
  intros Hskip.
  assert (Hsame : acquire_lock E oc self mode user body w
                  = with_lock E (_lock self) mode (fun _ => body) w).
  { unfold acquire_lock, with_lock, bind, try_finally.
    destruct (RwLock_enter E (_lock self) mode w) as [[lf | e] w1];
      [| reflexivity].
    destruct (body w1) as [[[] | e] w2]; [| reflexivity].
    by rewrite (execute_hook_skipped E oc self mode user lf w2 Hskip). }
  rewrite Hsame. split; [reflexivity |]. split.
  - intros Hlock. by rewrite with_lock_entered.
  - intros e Hlock. by rewrite (with_lock_fails E _ _ _ _ e).
Qed.

Lemma no_hook_in_read_mode_or_without_hook_witness :
  trace (snd (acquire_lock (example_env DEBUG (Ret ("", "", 0)))
                no_other_conversion example_storage Read (Some "alice")
                (ret tt) example_world))
  = [LockAcquired "/srv/radicale/.Radicale.lock" Read;
     LockReleased "/srv/radicale/.Radicale.lock" Read].
Proof.
  destruct (no_hook_in_read_mode_or_without_hook
              (example_env DEBUG (Ret ("", "", 0))) no_other_conversion
              example_storage Read (Some "alice") (ret tt) example_world
              (or_introl eq_refl))
    as (_ & Htrace & _).
  exact (Htrace eq_refl).
Defined.

(** C1.  In a write-mode transaction with a hook configured, everything
    the hook does lies between the end of the body and the release of the
    lock: the trace is the body's, then the events of the hook, then the
    release.  Among the events of the hook there is no release, every child
    that was spawned is waited on (by a [communicate] that ran to its end or
    by the [wait] after [terminate]), and when the body returned and the
    command was formed and spawned, the hook was spawned exactly once. *)
Theorem hook_runs_once_inside_write_lock
    (E : env) oc (self : storage) (user : option string) (body : M unit)
    (w : world) :
  lock_fails E (lock_path (_lock self)) Write = None ->
  str_truthy (hook (storage_configuration self)) = true ->
  trace (entered E (_lock self) Write w)
  = trace w ++ [LockAcquired (lock_path (_lock self)) Write]
  /\ locked (_lock self) (entered E (_lock self) Write w) = Some Write
  /\ exists evs : list event,
       trace (snd (acquire_lock E oc self Write user body w))
       = trace (after_body E self Write body w) ++ evs
         ++ [LockReleased (lock_path (_lock self)) Write]
       /\ held (snd (acquire_lock E oc self Write user body w))
          = unhold (lock_path (_lock self)) Write
              (held (after_body E self Write body w))
       /\ none_of is_release evs = true
       /\ every_spawn_reaped evs = true
       /\ (length (spawns evs) <= 1)%nat
       /\ (forall cmd child,
             body_result E self Write body w = Ret tt ->
             hook_command oc self user = Ret cmd ->
             spawn E cmd
               (hook_popen_kwargs E self (lock_file_of (_lock self) w))
             = Ret child ->
             spawns evs
             = [Popen cmd
                  (hook_popen_kwargs E self (lock_file_of (_lock self) w))
                  (Some child)]).
Proof.
  intros Hlock Hhook.
  split; [by apply trace_entered |].
  split; [by apply locked_entered |].
  destruct (body_result E self Write body w) as [[] | e] eqn:Hbody.
  2:{ exists []. rewrite (acquire_lock_body_raises E oc _ _ _ _ _ e) by done.
      cbn [snd]. rewrite trace_released. repeat split; simpl; try lia.
      intros; discriminate. }
  destruct (hook_command oc self user) as [cmd | e] eqn:Hcmd.
  2:{ exists []. rewrite acquire_lock_body_returns by done.
      rewrite (execute_hook_format_error E oc _ _ _ _ e) by done.
      cbn [snd]. rewrite trace_released. repeat split; simpl; try lia.
      intros; discriminate. }
  destruct (spawn E cmd
              (hook_popen_kwargs E self (lock_file_of (_lock self) w)))
    as [child | e] eqn:Hspawn.
  - exists (hook_events E cmd
              (hook_popen_kwargs E self (lock_file_of (_lock self) w)) child).
    rewrite (acquire_lock_hook_runs E oc _ _ _ _ cmd child) by done.
    cbn [snd]. rewrite trace_released. simpl trace.
    rewrite hook_events_one_spawn. repeat split.
    + by rewrite <- app_assoc.
    + apply hook_events_no_release.
    + apply hook_events_reaped.
    + simpl; lia.
    + intros cmd' child' _ [= <-]. rewrite Hspawn. by intros [= <-].
  - exists (debug_events E "Running hook"
            ++ [Popen cmd
                  (hook_popen_kwargs E self (lock_file_of (_lock self) w))
                  None]).
    rewrite acquire_lock_body_returns by done.
    rewrite (execute_hook_spawn_error E oc _ _ _ _ cmd e) by done.
    cbn [snd]. rewrite trace_released. simpl trace.
    unfold debug_events.
    destruct (isEnabledFor E DEBUG); simpl; rewrite <- ?app_assoc;
      repeat split; simpl; try lia;
      intros cmd' child' _ [= <-]; rewrite Hspawn; discriminate.
Qed.

Lemma hook_runs_once_inside_write_lock_witness :
  exists evs : list event,
    trace (snd (acquire_lock (example_env DEBUG (Ret ("", "", 0)))
                  no_other_conversion example_storage Write (Some "alice")
                  (ret tt) example_world))
    = [LockAcquired "/srv/radicale/.Radicale.lock" Write] ++ evs
      ++ [LockReleased "/srv/radicale/.Radicale.lock" Write]
    /\ none_of is_release evs = true
    /\ every_spawn_reaped evs = true
    /\ spawns evs
       = [Popen "echo alice > out.txt"
            (hook_popen_kwargs (example_env DEBUG (Ret ("", "", 0)))
               example_storage
               (lock_file_of (_lock example_storage) example_world))
            (Some 4711)].
Proof.
  destruct (hook_runs_once_inside_write_lock
              (example_env DEBUG (Ret ("", "", 0))) no_other_conversion
              example_storage (Some "alice") (ret tt) example_world
              eq_refl eq_refl)
    as (_ & _ & evs & Htrace & _ & Hrelease & Hreaped & _ & Honce).
  exists evs. split; [exact Htrace |]. split; [exact Hrelease |].
  split; [exact Hreaped |]. exact (Honce _ _ eq_refl eq_refl eq_refl).
Defined.

(** C2.  When the wait for the hook is interrupted by an exception [e]
    (of any kind), the calls that follow the interrupted [communicate] are
    [terminate] and then [wait] on the child, the lock is released after
    them, and the transaction ends with [e] itself. *)
Theorem interrupted_wait_terminates_and_reraises
    (E : env) oc (self : storage) (user : option string) (body : M unit)
    (w : world) (cmd : string) (child : Z) (e : exn) :
  lock_fails E (lock_path (_lock self)) Write = None ->
  str_truthy (hook (storage_configuration self)) = true ->
  body_result E self Write body w = Ret tt ->
  hook_command oc self user = Ret cmd ->
  spawn E cmd (hook_popen_kwargs E self (lock_file_of (_lock self) w))
  = Ret child ->
  run E child = Raise e ->
  fst (acquire_lock E oc self Write user body w) = Raise e
  /\ exists before cleanup : list event,
       trace (snd (acquire_lock E oc self Write user body w))
       = trace (after_body E self Write body w) ++ before
         ++ [Popen cmd
               (hook_popen_kwargs E self (lock_file_of (_lock self) w))
               (Some child);
             Communicate child false; Terminate child; Wait child]
         ++ cleanup ++ [LockReleased (lock_path (_lock self)) Write]
       /\ none_of is_spawn (before ++ cleanup) = true
       /\ none_of is_release (before ++ cleanup) = true.
Proof.
  intros Hlock Hhook Hbody Hcmd Hspawn Hrun.
  rewrite (acquire_lock_hook_runs E oc _ _ _ _ cmd child) by done.
  cbn [fst snd]. rewrite trace_released. simpl trace.
  unfold hook_result, hook_events, wait_events, captured_events.
  rewrite Hrun. split; [reflexivity |].
  exists (debug_events E "Running hook"), (cleanup_events E child).
  split.
  - rewrite <- !app_assoc. simpl. by rewrite ?app_nil_r.
  - unfold none_of. split; hook_cases.
Qed.

Lemma interrupted_wait_terminates_and_reraises_witness :
  fst (acquire_lock (example_env WARNING (Raise KeyboardInterrupt))
         no_other_conversion example_storage Write (Some "alice") (ret tt)
         example_world)
  = Raise KeyboardInterrupt.
Proof.
  exact (proj1 (interrupted_wait_terminates_and_reraises
                  (example_env WARNING (Raise KeyboardInterrupt))
                  no_other_conversion example_storage (Some "alice") (ret tt)
                  example_world "echo alice > out.txt" 4711 KeyboardInterrupt
                  eq_refl eq_refl eq_refl eq_refl eq_refl eq_refl)).
Defined.

(** C4.  When the hook exits with status 0 the write transaction ends
    without error; when it exits with another status, the transaction
    raises [CalledProcessError] with that status and with the command line
    that was passed to [Popen]. *)
Theorem hook_exit_status_decides
    (E : env) oc (self : storage) (user : option string) (body : M unit)
    (w : world) (cmd : string) (child : Z) (out err : string) (status : Z) :
  lock_fails E (lock_path (_lock self)) Write = None ->
  str_truthy (hook (storage_configuration self)) = true ->
  body_result E self Write body w = Ret tt ->
  hook_command oc self user = Ret cmd ->
  spawn E cmd (hook_popen_kwargs E self (lock_file_of (_lock self) w))
  = Ret child ->
  run E child = Ret (out, err, status) ->
  (status = 0 -> fst (acquire_lock E oc self Write user body w) = Ret tt)
  /\ (status <> 0 ->
      fst (acquire_lock E oc self Write user body w)
      = Raise (CalledProcessError (Some status) cmd))
  /\ spawns (trace (snd (acquire_lock E oc self Write user body w)))
     = spawns (trace (after_body E self Write body w))
       ++ [Popen cmd
             (hook_popen_kwargs E self (lock_file_of (_lock self) w))
             (Some child)].
Proof.
  intros Hlock Hhook Hbody Hcmd Hspawn Hrun.
  rewrite (acquire_lock_hook_runs E oc _ _ _ _ cmd child) by done.
  cbn [fst snd]. rewrite trace_released. simpl trace.
  rewrite !spawns_app, hook_events_one_spawn. simpl. rewrite ?app_nil_r.
  unfold hook_result. rewrite Hrun. repeat split.
  - by intros ->.
  - intros Hne. by destruct (Z.eqb_spec status 0).
Qed.

Lemma hook_exit_status_decides_witness :
  fst (acquire_lock (example_env WARNING (Ret ("", "", 7)))
         no_other_conversion example_storage Write (Some "alice") (ret tt)
         example_world)
  = Raise (CalledProcessError (Some 7) "echo alice > out.txt").
Proof.
  refine (proj1 (proj2 (hook_exit_status_decides
                  (example_env WARNING (Ret ("", "", 7)))
                  no_other_conversion example_storage (Some "alice") (ret tt)
                  example_world "echo alice > out.txt" 4711 "" "" 7
                  eq_refl eq_refl eq_refl eq_refl eq_refl eq_refl)) _).
  discriminate.
Defined.

(** C9.  The hook's standard input is always the null device.  Its
    standard output and standard error are pipes when the logger is enabled
    for DEBUG and the null device otherwise; [communicate] hands back the
    text of a pipe and nothing for the null device.  After a hook that ran
    to its end, each of the two captured texts is logged at debug level
    when debug logging is on and the text is not empty, and not otherwise. *)
Theorem hook_output_captured_when_debugging
    (E : env) oc (self : storage) (user : option string) (body : M unit)
    (w : world) (cmd : string) (child : Z) (out err : string) (status : Z) :
  lock_fails E (lock_path (_lock self)) Write = None ->
  str_truthy (hook (storage_configuration self)) = true ->
  body_result E self Write body w = Ret tt ->
  hook_command oc self user = Ret cmd ->
  spawn E cmd (hook_popen_kwargs E self (lock_file_of (_lock self) w))
  = Ret child ->
  run E child = Ret (out, err, status) ->
  stdin (hook_popen_kwargs E self (lock_file_of (_lock self) w)) = DEVNULL
  /\ stdout (hook_popen_kwargs E self (lock_file_of (_lock self) w))
     = (if isEnabledFor E DEBUG then PIPE else DEVNULL)
  /\ stderr (hook_popen_kwargs E self (lock_file_of (_lock self) w))
     = (if isEnabledFor E DEBUG then PIPE else DEVNULL)
  /\ captured
       (stdout (hook_popen_kwargs E self (lock_file_of (_lock self) w))) out
     = (if isEnabledFor E DEBUG then Some out else None)
  /\ captured
       (stderr (hook_popen_kwargs E self (lock_file_of (_lock self) w))) err
     = (if isEnabledFor E DEBUG then Some err else None)
  /\ exists cleanup : list event,
       trace (snd (acquire_lock E oc self Write user body w))
       = trace (after_body E self Write body w)
         ++ (if isEnabledFor E DEBUG then [LogDebug "Running hook"] else [])
         ++ [Popen cmd
               (hook_popen_kwargs E self (lock_file_of (_lock self) w))
               (Some child);
             Communicate child true]
         ++ cleanup
         ++ (if isEnabledFor E DEBUG && str_truthy out
             then [LogDebug ("Captured stdout hook:" +:+ newline +:+ out)]
             else [])
         ++ (if isEnabledFor E DEBUG && str_truthy err
             then [LogDebug ("Captured stderr hook:" +:+ newline +:+ err)]
             else [])
         ++ [LockReleased (lock_path (_lock self)) Write]
       /\ none_of is_debug_log cleanup = true.
Proof.
  intros Hlock Hhook Hbody Hcmd Hspawn Hrun.
  destruct (hook_streams E self (lock_file_of (_lock self) w))
    as (Hin & Hout & Herr).
  rewrite Hin, Hout, Herr.
  split; [reflexivity |]. split; [reflexivity |]. split; [reflexivity |].
  split; [by destruct (isEnabledFor E DEBUG) |].
  split; [by destruct (isEnabledFor E DEBUG) |].
  exists (cleanup_events E child).
  rewrite (acquire_lock_hook_runs E oc _ _ _ _ cmd child) by done.
  cbn [snd]. rewrite trace_released. simpl trace.
  unfold hook_events, wait_events, captured_events, debug_events.
  rewrite Hrun. split.
  - rewrite <- !app_assoc. reflexivity.
  - unfold none_of. hook_cases.
Qed.

Lemma hook_output_captured_when_debugging_witness :
  exists cleanup : list event,
    trace (snd (acquire_lock (example_env DEBUG (Ret ("pushed", "", 0)))
                  no_other_conversion example_storage Write (Some "alice")
                  (ret tt) example_world))
    = [LockAcquired "/srv/radicale/.Radicale.lock" Write;
       LogDebug "Running hook";
       Popen "echo alice > out.txt"
         (hook_popen_kwargs (example_env DEBUG (Ret ("pushed", "", 0)))
            example_storage
            (lock_file_of (_lock example_storage) example_world))
         (Some 4711);
       Communicate 4711 true]
      ++ cleanup
      ++ [LogDebug ("Captured stdout hook:" +:+ newline +:+ "pushed")]
      ++ []
      ++ [LockReleased "/srv/radicale/.Radicale.lock" Write]
    /\ none_of is_debug_log cleanup = true.
Proof.
  exact (proj2 (proj2 (proj2 (proj2 (proj2
    (hook_output_captured_when_debugging
       (example_env DEBUG (Ret ("pushed", "", 0))) no_other_conversion
       example_storage (Some "alice") (ret tt) example_world
       "echo alice > out.txt" 4711 "pushed" "" 0
       eq_refl eq_refl eq_refl eq_refl eq_refl eq_refl)))))).
Defined.

(** ** The quoted user as the shell reads it *)

Lemma snoc_append acc c key : snoc acc c +:+ key = acc +:+ String c key.
Proof.
  unfold snoc. induction acc as [| d acc IH]; [reflexivity |].
  rewrite !append_cons. by rewrite IH.
Qed.

Lemma append_nil_r s : s +:+ EmptyString = s.
Proof.
  induction s as [| c s IH]; [reflexivity |].
  rewrite append_cons. by rewrite IH.
Qed.

Lemma append_assoc a b c : (a +:+ b) +:+ c = a +:+ (b +:+ c).
Proof.
  induction a as [| d a IH]; [reflexivity |].
  rewrite !append_cons. by rewrite IH.
Qed.

Lemma no_percent_append a b :
  no_percent a = true -> no_percent b = true -> no_percent (a +:+ b) = true.
Proof.
  intros Ha Hb. induction a as [| c a IH]; [done |].
  rewrite append_cons. simpl in Ha |- *.
  apply andb_prop in Ha as [-> Ha]. by rewrite IH.
Qed.

(** What [shlex.quote] leaves bare the shell reads as itself. *)
Lemma safe_char_plain c :
  shlex.safe_char c = true ->
  sh_blank c = false /\ Ascii.eqb c shlex.squote = false
  /\ Ascii.eqb c shlex.dquote = false /\ sh_plain c = true.
Proof.
  destruct c as [[] [] [] [] [] [] [] []]; vm_compute; intros H;
    try discriminate H; repeat split.
Qed.

Lemma sh_read_bare u cur rest :
  shlex.find_unsafe u = false -> str_truthy u = true ->
  sh_read Unquoted cur (u +:+ rest)
  = sh_read Unquoted (Some (word_text cur +:+ u)) rest.
Proof.
  revert cur. induction u as [| c u IH]; intros cur Hsafe Hu;
    [discriminate |].
  simpl in Hsafe. apply orb_false_elim in Hsafe as [Hc Hsafe].
  apply negb_false_iff, safe_char_plain in Hc as (Hb & Hs & Hd & Hp).
  rewrite append_cons. cbn [sh_read]. rewrite Hb, Hs, Hd, Hp.
  destruct u as [| d u].
  - reflexivity.
  - rewrite IH by done. unfold word_push. cbn [word_text].
    by rewrite snoc_append.
Qed.

(** Inside single quotes, up to the closing quote: every single quote of
    the user was replaced by the five characters that close the quotes,
    give a single quote between double quotes, and open the quotes again. *)
Lemma sh_read_single_quoted u text rest :
  sh_read SingleQuoted (Some text)
    (shlex.replace_squote u +:+ String shlex.squote rest)
  = sh_read Unquoted (Some (text +:+ u)) rest.
Proof.
  revert text. induction u as [| c u IH]; intros text.
  - cbn [shlex.replace_squote].
    change (EmptyString +:+ String shlex.squote rest)
      with (String shlex.squote rest).
    by rewrite append_nil_r.
  - cbn [shlex.replace_squote].
    destruct (Ascii.eqb_spec c shlex.squote) as [-> | Hc].
    + rewrite !append_cons. cbn [sh_read].
      change (shlex.squote =? shlex.squote)%char with true.
      change (shlex.dquote =? shlex.dquote)%char with true.
      change (shlex.squote =? shlex.dquote)%char with false.
      change (shlex.dquote =? shlex.squote)%char with false.
      change (sh_blank shlex.squote) with false.
      change (sh_blank shlex.dquote) with false.
      change (sh_expands shlex.squote) with false.
      cbn iota. unfold word_push, word_open. cbn [word_text].
      rewrite IH. by rewrite snoc_append.
    + rewrite append_cons. cbn [sh_read].
      apply Ascii.eqb_neq in Hc. rewrite Hc.
      unfold word_push. cbn [word_text]. rewrite IH.
      by rewrite snoc_append.
Qed.

(** The shell reads the quoted user back as the user, in one piece. *)
Lemma sh_read_quote u cur rest :
  sh_read Unquoted cur (shlex.quote u +:+ rest)
  = sh_read Unquoted (Some (word_text cur +:+ u)) rest.
Proof.
  unfold shlex.quote. destruct (str_truthy u) eqn:Hu; cbn [negb].
  - destruct (shlex.find_unsafe u) eqn:Hsafe; cbn [negb].
    + rewrite append_cons, append_assoc.
      change (String shlex.squote EmptyString +:+ rest)
        with (String shlex.squote rest).
      cbn [sh_read]. change (sh_blank shlex.squote) with false.
      rewrite Ascii.eqb_refl. cbn iota. unfold word_open.
      by rewrite sh_read_single_quoted.
    + by apply sh_read_bare.
  - destruct u; [| discriminate]. by rewrite append_nil_r.
Qed.

Lemma word_end_app cur ts ts' :
  word_end cur (ts ++ ts') = word_end cur ts ++ ts'.
Proof. by destruct cur. Qed.

(** Reading a line, a blank, and a second line: the tokens of the first
    followed by those of the second. *)
Lemma sh_read_app_blank a q cur ts b :
  sh_read q cur a = Some ts ->
  sh_read q cur (a +:+ String " " b)
  = option_map (app ts) (sh_read Unquoted None b).
Proof.
  revert q cur ts. induction a as [| c a IH]; intros q cur ts Ha.
  - change (EmptyString +:+ String " " b) with (String " " b).
    destruct q; simpl in Ha; try discriminate. injection Ha as <-.
    cbn. destruct (sh_read Unquoted None b); [| done]. cbn.
    by rewrite <- word_end_app.
  - rewrite append_cons. cbn [sh_read] in Ha |- *.
    destruct q.
    + destruct (sh_blank c).
      { destruct (sh_read Unquoted None a) as [ts' |] eqn:Hts';
          [| discriminate].
        injection Ha as <-. rewrite (IH _ _ ts') by done.
        destruct (sh_read Unquoted None b); [| done]. cbn.
        by rewrite <- word_end_app. }
      destruct (Ascii.eqb c shlex.squote); [by apply IH |].
      destruct (Ascii.eqb c shlex.dquote); [by apply IH |].
      destruct (sh_plain c); [by apply IH |].
      destruct (sh_redirection c); [| discriminate].
      destruct cur; [discriminate |].
      destruct a as [| d a]; [discriminate |].
      rewrite append_cons. destruct (sh_blank d); [| discriminate].
      rewrite <- append_cons.
      destruct (sh_read Unquoted None (String d a)) as [ts' |] eqn:Hts';
        [| discriminate].
      injection Ha as <-. rewrite (IH _ _ ts') by done.
      by destruct (sh_read Unquoted None b).
    + destruct (Ascii.eqb c shlex.squote); by apply IH.
    + destruct (Ascii.eqb c shlex.dquote); [by apply IH |].
      destruct (sh_expands c); [discriminate | by apply IH].
Qed.

(** The quoted user alone is one word, the user. *)
Lemma sh_tokens_quote u : sh_tokens (shlex.quote u) = Some [Word u].
Proof.
  unfold sh_tokens. rewrite <- (append_nil_r (shlex.quote u)).
  by rewrite sh_read_quote.
Qed.

(** A command line with the quoted user as a word of its own. *)
Lemma sh_tokens_around_quote before after u ts ts' :
  sh_tokens before = Some ts ->
  sh_tokens after = Some ts' ->
  sh_tokens ((before +:+ " ") +:+ shlex.quote u +:+ (" " +:+ after))
  = Some (ts ++ [Word u] ++ ts').
Proof.
  unfold sh_tokens. intros Hbefore Hafter.
  rewrite append_assoc.
  change (" " +:+ shlex.quote u +:+ " " +:+ after)
    with (String " " (shlex.quote u +:+ String " " after)).
  rewrite (sh_read_app_blank _ _ _ ts) by done.
  rewrite sh_read_quote. cbn [sh_read word_text].
  change (sh_blank " ") with true. cbn iota.
  change (EmptyString +:+ u) with u.
  by rewrite Hafter.
Qed.

(** C6.  The command line passed to [Popen] is the hook template with the
    shell-quoted user put in the place of [%(user)s], or with the word
    Anonymous when no user is given; it is run through a shell, in the
    storage folder.  The quoting is an escaping for that shell: the shell
    reads the text put into the template as one word whose value is the
    user, whatever characters the user has, and in a template that has the
    placeholder as a word of its own the command is read as the words of
    the template with that one word in the place of the placeholder.  The
    template [echo %(user)s > out.txt] with the user alice gives
    [echo alice > out.txt]; with a user that has a blank or a single quote
    the user is put between single quotes. *)
Theorem hook_command_substitutes_quoted_user
    (E : env) oc (self : storage) (user : option string) (body : M unit)
    (w : world) (cmd : string) :
  lock_fails E (lock_path (_lock self)) Write = None ->
  str_truthy (hook (storage_configuration self)) = true ->
  body_result E self Write body w = Ret tt ->
  hook_command oc self user = Ret cmd ->
  (exists spawned : option Z,
     spawns (trace (snd (acquire_lock E oc self Write user body w)))
     = spawns (trace (after_body E self Write body w))
       ++ [Popen cmd
             (hook_popen_kwargs E self (lock_file_of (_lock self) w))
             spawned])
  /\ shell (hook_popen_kwargs E self (lock_file_of (_lock self) w)) = true
  /\ cwd (hook_popen_kwargs E self (lock_file_of (_lock self) w))
     = filesystem_folder (storage_configuration self)
  /\ (forall u, user = Some u -> str_truthy u = true ->
      py_format oc (hook (storage_configuration self)) (shlex.quote u)
      = Ret cmd)
  /\ (user = None ->
      py_format oc (hook (storage_configuration self)) "Anonymous" = Ret cmd)
  /\ (forall pre post,
      hook (storage_configuration self) = pre +:+ "%(user)s" +:+ post ->
      no_percent pre = true -> no_percent post = true ->
      cmd = pre +:+ shlex.quote (py_or user "Anonymous") +:+ post)
  /\ py_format oc "echo %(user)s > out.txt" (shlex.quote "alice")
     = Ret "echo alice > out.txt"
  /\ sh_tokens (shlex.quote (py_or user "Anonymous"))
     = Some [Word (py_or user "Anonymous")]
  /\ (forall before after ts ts',
      hook (storage_configuration self)
      = (before +:+ " ") +:+ "%(user)s" +:+ (" " +:+ after) ->
      no_percent before = true -> no_percent after = true ->
      sh_tokens before = Some ts -> sh_tokens after = Some ts' ->
      sh_tokens cmd = Some (ts ++ [Word (py_or user "Anonymous")] ++ ts'))
  /\ (hook (storage_configuration self) = "echo %(user)s > out.txt" ->
      sh_tokens cmd
      = Some [Word "echo"; Word (py_or user "Anonymous"); Redirect ">";
              Word "out.txt"])
  /\ py_format oc "echo %(user)s > out.txt" (shlex.quote "alice smith")
     = Ret "echo 'alice smith' > out.txt"
  /\ py_format oc "echo %(user)s > out.txt" (shlex.quote "o'brien")
     = Ret ("echo 'o'" +:+ String shlex.dquote
              ("'" +:+ String shlex.dquote "'brien' > out.txt")).
Proof.
  intros Hlock Hhook Hbody Hcmd.
  assert (Hwords : forall before after ts ts',
             hook (storage_configuration self)
             = (before +:+ " ") +:+ "%(user)s" +:+ (" " +:+ after) ->
             no_percent before = true -> no_percent after = true ->
             sh_tokens before = Some ts -> sh_tokens after = Some ts' ->
             sh_tokens cmd
             = Some (ts ++ [Word (py_or user "Anonymous")] ++ ts')).
  { intros before after ts ts' Hfmt Hbefore Hafter Hts Hts'.
    unfold hook_command in Hcmd. rewrite Hfmt in Hcmd.
    rewrite format_substitutes in Hcmd
      by (by apply no_percent_append).
    injection Hcmd as <-. by apply sh_tokens_around_quote. }
  split.
  { destruct (spawn E cmd
                (hook_popen_kwargs E self (lock_file_of (_lock self) w)))
      as [child | e] eqn:Hspawn.
    - exists (Some child).
      rewrite (acquire_lock_hook_runs E oc _ _ _ _ cmd child) by done.
      cbn [snd]. rewrite trace_released. simpl trace.
      rewrite !spawns_app, hook_events_one_spawn. simpl.
      by rewrite ?app_nil_r.
    - exists None.
      rewrite acquire_lock_body_returns by done.
      rewrite (execute_hook_spawn_error E oc _ _ _ _ cmd e) by done.
      cbn [snd]. rewrite trace_released. simpl trace.
      rewrite !spawns_app. unfold debug_events.
      destruct (isEnabledFor E DEBUG); simpl; by rewrite ?app_nil_r. }
  split.
  { unfold hook_popen_kwargs.
    by destruct (os_eqb (os_name E) posix), (os_eqb (os_name E) nt). }
  split.
  { unfold hook_popen_kwargs.
    by destruct (os_eqb (os_name E) posix), (os_eqb (os_name E) nt). }
  split.
  { intros u -> Hu. rewrite <- Hcmd. unfold hook_command, py_or.
    by rewrite Hu. }
  split.
  { intros ->. by rewrite <- Hcmd. }
  split.
  { intros pre post Hfmt Hpre Hpost.
    unfold hook_command in Hcmd. rewrite Hfmt in Hcmd.
    rewrite format_substitutes in Hcmd by done. by injection Hcmd as <-. }
  split; [reflexivity |].
  split; [apply sh_tokens_quote |].
  split; [exact Hwords |].
  split; [| split; reflexivity].
  intros Hfmt.
  exact (Hwords "echo" "> out.txt" [Word "echo"]
           [Redirect ">"; Word "out.txt"] Hfmt eq_refl eq_refl eq_refl
           eq_refl).
Qed.

Lemma hook_command_substitutes_quoted_user_witness :
  (exists spawned : option Z,
     spawns (trace (snd (acquire_lock (example_env WARNING (Ret ("", "", 0)))
                           no_other_conversion example_storage Write
                           (Some "o'brien; reboot") (ret tt) example_world)))
     = spawns [LockAcquired "/srv/radicale/.Radicale.lock" Write]
       ++ [Popen example_quoted_command
             (hook_popen_kwargs (example_env WARNING (Ret ("", "", 0)))
                example_storage
                (lock_file_of (_lock example_storage) example_world))
             spawned])
  /\ sh_tokens example_quoted_command
     = Some [Word "echo"; Word "o'brien; reboot"; Redirect ">";
             Word "out.txt"].
Proof.
  destruct (hook_command_substitutes_quoted_user
              (example_env WARNING (Ret ("", "", 0))) no_other_conversion
              example_storage (Some "o'brien; reboot") (ret tt) example_world
              example_quoted_command eq_refl eq_refl eq_refl eq_refl)
    as (Hspawn & _ & _ & _ & _ & _ & _ & _ & _ & Hexample & _).
  split; [exact Hspawn | exact (Hexample eq_refl)].
Defined.

(** C10.  An empty user name is the same as no user: the two transactions
    are equal in outcome and in everything they do, and the value put into
    the template is the word Anonymous, not the quoted empty string. *)
Theorem empty_user_is_anonymous
    (E : env) oc (self : storage) (mode : lock_mode) (body : M unit)
    (w : world) :
  acquire_lock E oc self mode (Some EmptyString) body w
  = acquire_lock E oc self mode None body w
  /\ hook_command oc self (Some EmptyString)
     = py_format oc (hook (storage_configuration self)) "Anonymous"
  /\ hook_command oc example_storage (Some EmptyString)
     = Ret "echo Anonymous > out.txt"
  /\ py_format oc (hook (storage_configuration example_storage))
       (shlex.quote EmptyString)
     = Ret "echo '' > out.txt".
Proof. repeat split. Qed.

(** ** The cache lock *)

Lemma append_inj_l a x y : a +:+ x = a +:+ y -> x = y.
Proof.
  induction a as [| c a IH]; [done |].
  rewrite !append_cons. intros [= H]. by apply IH.
Qed.

Lemma endswith_char_append x y c :
  str_truthy y = true -> endswith_char (x +:+ y) c = endswith_char y c.
Proof.
  intros Hy. induction x as [| d x IH]; [done |].
  rewrite append_cons. simpl. rewrite IH.
  destruct (x +:+ y) eqn:Hxy; [| done].
  destruct x; [| discriminate].
  change (EmptyString +:+ y) with y in Hxy. by subst y.
Qed.

Lemma str_truthy_append x y :
  str_truthy y = true -> str_truthy (x +:+ y) = true.
Proof. by destruct x. Qed.

(** A relative second component is appended, after a separator unless the
    first component is empty or ends with one. *)
Lemma os_path_join_relative a b :
  startswith b "/" = false ->
  os_path_join a b = a +:+ b \/ os_path_join a b = (a +:+ "/") +:+ b.
Proof.
  intros Hb. unfold os_path_join. rewrite Hb.
  destruct (negb (str_truthy a) || endswith_char a "/"); [by left |].
  right. induction a as [| c a IH]; [done |].
  rewrite !append_cons. f_equal. exact IH.
Qed.

Lemma cache_lock_path_inside self ns :
  cache_lock_path self ns
  = cache_folder_of self +:+ "/" +:+ ".Radicale.lock"
    +:+ (if str_truthy ns then "." +:+ ns else EmptyString).
Proof.
  unfold cache_lock_path, os_path_join at 1.
  change (startswith (cache_lock_name ns) "/") with false.
  replace (negb (str_truthy (cache_folder_of self))
           || endswith_char (cache_folder_of self) "/") with false;
    [reflexivity |].
  unfold cache_folder_of.
  destruct (os_path_join_relative (_filesystem_path self) ".Radicale.cache"
              eq_refl) as [-> | ->];
    by rewrite str_truthy_append, endswith_char_append.
Qed.

Lemma cache_lock_path_inj self ns ns' :
  cache_lock_path self ns' = cache_lock_path self ns -> ns' = ns.
Proof.
  rewrite !cache_lock_path_inside.
  intros H. apply append_inj_l in H.
  apply (append_inj_l "/.Radicale.lock") in H.
  destruct ns' as [| c' ns'], ns as [| c ns]; simpl in H;
    try discriminate; [done |].
  by apply (append_inj_l ".") in H.
Qed.

Lemma acquire_cache_lock_write_held (E : env) (self : collection)
    (ns : string) (w : world) :
  locked (_lock (_storage self)) w = Some Write ->
  _acquire_cache_lock E self ns w = (Ret ExitStack, w).
Proof. intros Hlocked. unfold _acquire_cache_lock. by rewrite Hlocked. Qed.

(** C3.  While the storage lock is held in write mode, a call to
    [_acquire_cache_lock], with any namespace, returns the scoped resource
    that does nothing and leaves the world as it was: no directory is
    created, no lock file is created, no lock is taken, no collaborator is
    called; a [with] block over the result is its body alone. *)
Theorem cache_lock_is_noop_under_write_lock
    (E : env) (self : collection) (ns : string) (w : world) :
  locked (_lock (_storage self)) w = Some Write ->
  _acquire_cache_lock E self ns w = (Ret ExitStack, w)
  /\ forall body : M unit,
       (cm <- _acquire_cache_lock E self ns ;; with_ E cm body)%py w = body w.
Proof.
  intros Hlocked.
  pose proof (acquire_cache_lock_write_held E self ns w Hlocked) as Hcall.
  split; [exact Hcall |].
  intros body. unfold bind. by rewrite Hcall.
Qed.

Lemma cache_lock_is_noop_under_write_lock_witness :
  _acquire_cache_lock (example_env DEBUG (Ret ("", "", 0)))
    example_collection "sync-token"
    (entered (example_env DEBUG (Ret ("", "", 0))) (_lock example_storage)
       Write example_world)
  = (Ret ExitStack,
     entered (example_env DEBUG (Ret ("", "", 0))) (_lock example_storage)
       Write example_world).
Proof.
  exact (proj1 (cache_lock_is_noop_under_write_lock
                  (example_env DEBUG (Ret ("", "", 0))) example_collection
                  "sync-token"
                  (entered (example_env DEBUG (Ret ("", "", 0)))
                     (_lock example_storage) Write example_world)
                  eq_refl)).
Defined.

Lemma bind_same_at {A B} (c c' : M A) (k : A -> M B) w :
  c w = c' w -> bind c k w = bind c' k w.
Proof. unfold bind. by intros ->. Qed.

(** X10.  In the body of a write transaction on the collection's storage
    the cache lock is therefore never taken: a transaction whose body wraps
    its work in [with self._acquire_cache_lock(ns)] is, in outcome and in
    every call it makes, the transaction on the bare work. *)
Corollary cache_lock_inside_write_transaction
    (E : env) oc (self : collection) (ns : string) (user : option string)
    (inner : M unit) (w : world) :
  lock_fails E (lock_path (_lock (_storage self))) Write = None ->
  acquire_lock E oc (_storage self) Write user
    (cm <- _acquire_cache_lock E self ns ;; with_ E cm inner)%py w
  = acquire_lock E oc (_storage self) Write user inner w.
Proof.
  intros Hlock. unfold acquire_lock.
  rewrite !with_lock_entered by done.
  assert (Hnoop : (cm <- _acquire_cache_lock E self ns ;; with_ E cm inner)%py
                    (entered E (_lock (_storage self)) Write w)
                  = inner (entered E (_lock (_storage self)) Write w)).
  { unfold bind.
    by rewrite acquire_cache_lock_write_held by by apply locked_entered. }
  by rewrite (bind_same_at _ inner _ _ Hnoop).
Qed.

(** C5.  While the storage lock is not held in write mode, a call to
    [_acquire_cache_lock] creates the cache directory through
    [_makedirs_synced] (it is among the directories afterwards, whether or
    not it was before) and returns the write-mode acquisition of the lock
    file [.Radicale.lock], or [.Radicale.lock.<ns>] for a non-empty
    namespace, inside that directory; entering it takes that lock in write
    mode.  Different namespaces give different lock files. *)
Theorem cache_lock_taken_outside_write_lock
    (E : env) (self : collection) (ns : string) (w : world) :
  locked (_lock (_storage self)) w <> Some Write ->
  makedirs_fails E (cache_folder_of self) = None ->
  exists w' : world,
    _acquire_cache_lock E self ns w
    = (Ret (RwLock_acquire (cache_lock self ns) Write), w')
    /\ trace w' = trace w ++ [MakedirsSynced (cache_folder_of self)]
    /\ dirs w' = {[cache_folder_of self]} ∪ dirs w
    /\ files w' = files w
    /\ held w' = held w
    /\ cache_lock_path self ns
       = cache_folder_of self +:+ "/" +:+ ".Radicale.lock"
         +:+ (if str_truthy ns then "." +:+ ns else EmptyString)
    /\ (lock_fails E (cache_lock_path self ns) Write = None ->
        forall body : M unit,
          with_ E (RwLock_acquire (cache_lock self ns) Write) body w'
          = (fst (body (entered E (cache_lock self ns) Write w')),
             released (cache_lock self ns) Write
               (snd (body (entered E (cache_lock self ns) Write w'))))
          /\ trace (entered E (cache_lock self ns) Write w')
             = trace w' ++ [LockAcquired (cache_lock_path self ns) Write]
          /\ locked (cache_lock self ns)
               (entered E (cache_lock self ns) Write w') = Some Write
          /\ files (entered E (cache_lock self ns) Write w')
             = {[cache_lock_path self ns]} ∪ files w')
    /\ (forall ns', ns' <> ns ->
        cache_lock_path self ns' <> cache_lock_path self ns).
Proof.
  intros Hlocked Hmk.
  eexists. split.
  { unfold _acquire_cache_lock.
    destruct (locked (_lock (_storage self)) w) as [[|] |]; try done;
      unfold bind, _makedirs_synced; rewrite Hmk; reflexivity. }
  cbn [trace dirs files held].
  split; [done |]. split; [done |]. split; [done |]. split; [done |].
  split; [apply cache_lock_path_inside |].
  split.
  - intros Hlock body.
    split; [by apply (with_lock_entered E (cache_lock self ns)) |].
    split; [by apply (trace_entered E (cache_lock self ns)) |].
    split; [by apply (locked_entered E (cache_lock self ns)) |].
    unfold entered, RwLock_enter. cbn [cache_lock lock_path].
    by rewrite Hlock.
  - intros ns' Hne Heq. by apply Hne, (cache_lock_path_inj self).
Qed.

Lemma cache_lock_taken_outside_write_lock_witness :
  exists w' : world,
    _acquire_cache_lock (example_env DEBUG (Ret ("", "", 0)))
      example_collection "sync-token" example_world
    = (Ret (RwLock_acquire (cache_lock example_collection "sync-token")
              Write), w')
    /\ trace w'
       = [MakedirsSynced
            "/srv/radicale/collection-root/alice/calendar/.Radicale.cache"]
    /\ cache_lock_path example_collection "sync-token"
       = "/srv/radicale/collection-root/alice/calendar/.Radicale.cache"
         +:+ "/" +:+ ".Radicale.lock" +:+ "." +:+ "sync-token".
Proof.
  destruct (cache_lock_taken_outside_write_lock
              (example_env DEBUG (Ret ("", "", 0))) example_collection
              "sync-token" example_world
              ltac:(discriminate) eq_refl)
    as (w' & Hcall & Htrace & _ & _ & _ & Hpath & _).
  exists w'. split; [exact Hcall |]. split; [exact Htrace | exact Hpath].
Defined.

(** ** Runs on the example storage *)

Example quote_plain : shlex.quote "alice" = "alice".
Proof. reflexivity. Qed.

Example quote_space : shlex.quote "alice smith" = "'alice smith'".
Proof. reflexivity. Qed.

Example quote_empty : shlex.quote EmptyString = "''".
Proof. reflexivity. Qed.

Example quote_single_quote :
  shlex.quote "o'brien"
  = String shlex.squote
      ("o" +:+ String shlex.squote (String shlex.dquote (String shlex.squote
         (String shlex.dquote (String shlex.squote "brien'"))))).
Proof. reflexivity. Qed.

Example format_percent oc :
  py_format oc "100%% of %(user)s" "alice" = Ret "100% of alice".
Proof. reflexivity. Qed.

Example format_unknown_key oc v :
  py_format oc "echo %(name)s" v = Raise (KeyError "name").
Proof. reflexivity. Qed.

Example format_incomplete oc v :
  py_format oc "echo 100%" v = Raise (ValueError "incomplete format").
Proof. reflexivity. Qed.

Example format_incomplete_key oc v :
  py_format oc "echo %(user" v = Raise (ValueError "incomplete format key").
Proof. reflexivity. Qed.

Example join_relative :
  os_path_join "/srv/radicale" ".Radicale.lock" = "/srv/radicale/.Radicale.lock".
Proof. reflexivity. Qed.

Example join_after_separator :
  os_path_join "/srv/radicale/" ".Radicale.lock"
  = "/srv/radicale/.Radicale.lock".
Proof. reflexivity. Qed.

(** A write transaction with debug logging: the hook prints a line and
    exits with status 0. *)
Example write_transaction_run :
  let final :=
    acquire_lock (example_env DEBUG (Ret ("pushed", "", 0)))
      no_other_conversion example_storage Write (Some "alice") (ret tt)
      example_world in
  fst final = Ret tt
  /\ trace (snd final)
     = [LockAcquired "/srv/radicale/.Radicale.lock" Write;
        LogDebug "Running hook";
        Popen "echo alice > out.txt"
          {| stdin := DEVNULL; stdout := PIPE; stderr := PIPE;
             shell := true; universal_newlines := true;
             cwd := "/srv/radicale"; pass_fds := Some [3];
             preexec_fn := Some setpgrp; creationflags := None |}
          (Some 4711);
        Communicate 4711 true;
        Killpg 4711 SIGKILL;
        LogDebug ("Captured stdout hook:" +:+ newline +:+ "pushed");
        LockReleased "/srv/radicale/.Radicale.lock" Write]
  /\ held (snd final) = [].
Proof. repeat split. Qed.

(** The wait is interrupted: terminate, wait, clean up, release, and the
    interrupt goes on. *)
Example interrupted_transaction_run :
  let final :=
    acquire_lock (example_env WARNING (Raise KeyboardInterrupt))
      no_other_conversion example_storage Write None (ret tt)
      example_world in
  fst final = Raise KeyboardInterrupt
  /\ trace (snd final)
     = [LockAcquired "/srv/radicale/.Radicale.lock" Write;
        Popen "echo Anonymous > out.txt"
          {| stdin := DEVNULL; stdout := DEVNULL; stderr := DEVNULL;
             shell := true; universal_newlines := true;
             cwd := "/srv/radicale"; pass_fds := Some [3];
             preexec_fn := Some setpgrp; creationflags := None |}
          (Some 4711);
        Communicate 4711 false;
        Terminate 4711;
        Wait 4711;
        Killpg 4711 SIGKILL;
        LockReleased "/srv/radicale/.Radicale.lock" Write].
Proof. repeat split. Qed.

(** The cache lock outside a transaction, and inside a write transaction. *)
Example cache_lock_run :
  trace (snd ((cm <- _acquire_cache_lock (example_env WARNING (Ret ("", "", 0)))
                       example_collection "sync-token" ;;
               with_ (example_env WARNING (Ret ("", "", 0))) cm (ret tt))%py
                example_world))
  = [MakedirsSynced
       "/srv/radicale/collection-root/alice/calendar/.Radicale.cache";
     LockAcquired
       "/srv/radicale/collection-root/alice/calendar/.Radicale.cache/.Radicale.lock.sync-token"
       Write;
     LockReleased
       "/srv/radicale/collection-root/alice/calendar/.Radicale.cache/.Radicale.lock.sync-token"
       Write].
Proof. reflexivity. Qed.

Example cache_lock_in_read_transaction_run :
  trace (snd (acquire_lock (example_env WARNING (Ret ("", "", 0)))
                no_other_conversion example_storage Read None
                (cm <- _acquire_cache_lock
                         (example_env WARNING (Ret ("", "", 0)))
                         example_collection EmptyString ;;
                 with_ (example_env WARNING (Ret ("", "", 0))) cm (ret tt))%py
                example_world))
  = [LockAcquired "/srv/radicale/.Radicale.lock" Read;
     MakedirsSynced
       "/srv/radicale/collection-root/alice/calendar/.Radicale.cache";
     LockAcquired
       "/srv/radicale/collection-root/alice/calendar/.Radicale.cache/.Radicale.lock"
       Write;
     LockReleased
       "/srv/radicale/collection-root/alice/calendar/.Radicale.cache/.Radicale.lock"
       Write;
     LockReleased "/srv/radicale/.Radicale.lock" Read].
Proof. reflexivity. Qed.

(** * Further properties of the two methods *)

(** ** Failure to start *)

(** X1.  When the storage lock cannot be taken, the exception of the lock
    reaches the caller and nothing else happens: the body is not run, no
    hook is run and nothing is released, in either mode and whatever hook
    is configured. *)
Theorem lock_failure_runs_nothing
    (E : env) oc (self : storage) (mode : lock_mode) (user : option string)
    (body : M unit) (w : world) (e : exn) :
  lock_fails E (lock_path (_lock self)) mode = Some e ->
  acquire_lock E oc self mode user body w = (Raise e, w).
Proof. intros Hlock. unfold acquire_lock. by apply with_lock_fails. Qed.

Lemma lock_failure_runs_nothing_witness :
  acquire_lock
    (host posix DEBUG (fun _ _ => Some LockError) (fun _ => None) (Ret 4711)
       (Ret ("", "", 0)) false)
    no_other_conversion example_storage Write (Some "alice")
    (emit (LogDebug "body")) example_world
  = (Raise LockError, example_world).
Proof.
  exact (lock_failure_runs_nothing
           (host posix DEBUG (fun _ _ => Some LockError) (fun _ => None)
              (Ret 4711) (Ret ("", "", 0)) false)
           no_other_conversion example_storage Write (Some "alice")
           (emit (LogDebug "body")) example_world LockError eq_refl).
Defined.

(** X2.  When the hook cannot be spawned, the exception of [Popen] ends
    the transaction: [Popen] was called once, no call is made on a child
    (no [communicate], [terminate], [wait] or [killpg]: the [try] starts
    after [Popen]), and the lock is released. *)
Theorem spawn_failure_releases_without_waiting
    (E : env) oc (self : storage) (user : option string) (body : M unit)
    (w : world) (cmd : string) (e : exn) :
  lock_fails E (lock_path (_lock self)) Write = None ->
  str_truthy (hook (storage_configuration self)) = true ->
  body_result E self Write body w = Ret tt ->
  hook_command oc self user = Ret cmd ->
  spawn E cmd (hook_popen_kwargs E self (lock_file_of (_lock self) w))
  = Raise e ->
  fst (acquire_lock E oc self Write user body w) = Raise e
  /\ trace (snd (acquire_lock E oc self Write user body w))
     = trace (after_body E self Write body w)
       ++ (if isEnabledFor E DEBUG then [LogDebug "Running hook"] else [])
       ++ [Popen cmd
             (hook_popen_kwargs E self (lock_file_of (_lock self) w)) None;
           LockReleased (lock_path (_lock self)) Write]
  /\ none_of is_child_call
       ((if isEnabledFor E DEBUG then [LogDebug "Running hook"] else [])
        ++ [Popen cmd
              (hook_popen_kwargs E self (lock_file_of (_lock self) w)) None;
            LockReleased (lock_path (_lock self)) Write]) = true.
Proof.
  intros Hlock Hhook Hbody Hcmd Hspawn.
  rewrite acquire_lock_body_returns by done.
  rewrite (execute_hook_spawn_error E oc _ _ _ _ cmd e) by done.
  cbn [fst snd]. rewrite trace_released. simpl trace.
  unfold debug_events. split; [reflexivity |]. split.
  - by rewrite <- !app_assoc.
  - by destruct (isEnabledFor E DEBUG).
Qed.

Lemma spawn_failure_releases_without_waiting_witness :
  fst (acquire_lock
         (host posix DEBUG (fun _ _ => None) (fun _ => None)
            (Raise SpawnError) (Ret ("", "", 0)) false)
         no_other_conversion example_storage Write (Some "alice") (ret tt)
         example_world)
  = Raise SpawnError.
Proof.
  exact (proj1 (spawn_failure_releases_without_waiting
                  (host posix DEBUG (fun _ _ => None) (fun _ => None)
                     (Raise SpawnError) (Ret ("", "", 0)) false)
                  no_other_conversion example_storage (Some "alice") (ret tt)
                  example_world "echo alice > out.txt" SpawnError
                  eq_refl eq_refl eq_refl eq_refl eq_refl)).
Defined.

(** X3.  When the hook template does not format, the write transaction
    fails with the exception of the [%] operator after the body has run to
    its end: what the body did stays done, nothing is logged or spawned, and
    the lock is released. *)
Theorem format_error_fails_after_body
    (E : env) oc (self : storage) (user : option string) (body : M unit)
    (w : world) (e : exn) :
  lock_fails E (lock_path (_lock self)) Write = None ->
  str_truthy (hook (storage_configuration self)) = true ->
  body_result E self Write body w = Ret tt ->
  hook_command oc self user = Raise e ->
  acquire_lock E oc self Write user body w
  = (Raise e,
     released (_lock self) Write (after_body E self Write body w)).
Proof.
  intros Hlock Hhook Hbody Hcmd.
  rewrite acquire_lock_body_returns by done.
  by rewrite (execute_hook_format_error E oc _ _ _ _ e).
Qed.

Lemma format_error_fails_after_body_witness :
  trace (snd (acquire_lock (example_env DEBUG (Ret ("", "", 0)))
                no_other_conversion
                (StorageLockMixin_init
                   {| filesystem_folder := "/srv/radicale";
                      hook := "git commit -m %(message)s" |})
                Write (Some "alice") (emit (MakedirsSynced "/srv/radicale/x"))
                example_world))
  = [LockAcquired "/srv/radicale/.Radicale.lock" Write;
     MakedirsSynced "/srv/radicale/x";
     LockReleased "/srv/radicale/.Radicale.lock" Write].
Proof.
  exact (f_equal (fun r => trace (snd r))
           (format_error_fails_after_body
              (example_env DEBUG (Ret ("", "", 0))) no_other_conversion
              (StorageLockMixin_init
                 {| filesystem_folder := "/srv/radicale";
                    hook := "git commit -m %(message)s" |})
              (Some "alice") (emit (MakedirsSynced "/srv/radicale/x"))
              example_world (KeyError "message")
              eq_refl eq_refl eq_refl eq_refl)).
Defined.

(** ** Templates that do not format *)

(** Reading a key up to its closing parenthesis. *)
Lemma format_key oc acc key rest v :
  no_paren key = true ->
  format_from oc (Key 1 acc) (key +:+ String ")" rest) v
  = if String.eqb (acc +:+ key) "user" then format_from oc Conv rest v
    else Raise (KeyError (acc +:+ key)).
Proof.
  revert acc. induction key as [| c key IH]; intros acc Hkey.
  - change (EmptyString +:+ String ")" rest) with (String ")" rest).
    rewrite append_nil_r. reflexivity.
  - rewrite append_cons. simpl in Hkey |- *.
    apply andb_prop in Hkey as [[Hopen Hclose]%andb_prop Hkey].
    destruct (Ascii.eqb c ")"); [discriminate |].
    destruct (Ascii.eqb c "("); [discriminate |].
    rewrite (IH _ Hkey). by rewrite snoc_append.
Qed.

(** X4.  The dictionary the template is formatted with has the one key
    [user]: a template whose first conversion names another key makes the
    command raise [KeyError] with that key, for every user; and a template
    that ends in a lone percent sign raises [ValueError]. *)
Theorem foreign_placeholder_raises_key_error
    oc (self : storage) (user : option string) (pre key rest : string) :
  no_percent pre = true ->
  no_paren key = true ->
  key <> "user" ->
  (hook (storage_configuration self)
   = pre +:+ "%(" +:+ key +:+ String ")" rest ->
   hook_command oc self user = Raise (KeyError key))
  /\ (hook (storage_configuration self) = pre +:+ "%" ->
      hook_command oc self user = Raise (ValueError "incomplete format")).
Proof.
  intros Hpre Hkey Hne. unfold hook_command. split; intros ->.
  - rewrite format_prefix by done.
    change ("%(" +:+ key +:+ String ")" rest)
      with (String "%" (String "(" (key +:+ String ")" rest))).
    unfold py_format. cbn [format_from]. simpl.
    rewrite format_key by done.
    change (EmptyString +:+ key) with key.
    by apply String.eqb_neq in Hne as ->.
  - by rewrite format_prefix.
Qed.

Lemma foreign_placeholder_raises_key_error_witness :
  hook_command no_other_conversion
    (StorageLockMixin_init
       {| filesystem_folder := "/srv/radicale";
          hook := "git commit -m %(message)s" |})
    (Some "alice")
  = Raise (KeyError "message").
Proof.
  exact (proj1 (foreign_placeholder_raises_key_error no_other_conversion
                  (StorageLockMixin_init
                     {| filesystem_folder := "/srv/radicale";
                        hook := "git commit -m %(message)s" |})
                  (Some "alice") "git commit -m " "message" "s"
                  eq_refl eq_refl ltac:(discriminate)) eq_refl).
Defined.

(** ** What a transaction leaves behind *)

Lemma execute_hook_frame (E : env) oc self mode user lf w :
  exists evs : list event,
    snd (execute_hook E oc self mode user lf w) = log_events w evs
    /\ none_of is_release evs = true.
Proof.
  destruct mode.
  { exists []. rewrite execute_hook_skipped by by left.
    by rewrite log_events_nil. }
  destruct (str_truthy (hook (storage_configuration self))) eqn:Hhook.
  2:{ exists []. rewrite execute_hook_skipped by by right.
      by rewrite log_events_nil. }
  destruct (hook_command oc self user) as [cmd | e] eqn:Hcmd.
  2:{ exists []. rewrite (execute_hook_format_error E oc _ _ _ _ e) by done.
      by rewrite log_events_nil. }
  destruct (spawn E cmd (hook_popen_kwargs E self lf)) as [child | e]
    eqn:Hspawn.
  - eexists. rewrite (execute_hook_runs E oc _ _ _ _ cmd child) by done.
    split; [reflexivity |]. apply hook_events_no_release.
  - eexists. rewrite (execute_hook_spawn_error E oc _ _ _ _ cmd e) by done.
    split; [reflexivity |]. unfold debug_events.
    by destruct (isEnabledFor E DEBUG).
Qed.

(** X5.  However a transaction ends (the body raises, the hook is skipped,
    fails to format, fails to start, is interrupted, exits with any status),
    once the lock was taken it is released as the last step and exactly
    once after the body, and the code after the body changes nothing but
    the trace: it creates no directory and no lock file and touches no
    lock.  If the body left the lock table as it found it, the table is
    afterwards what it was before the transaction. *)
Theorem transaction_releases_on_every_path
    (E : env) oc (self : storage) (mode : lock_mode) (user : option string)
    (body : M unit) (w : world) :
  lock_fails E (lock_path (_lock self)) mode = None ->
  (exists evs : list event,
     trace (snd (acquire_lock E oc self mode user body w))
     = trace (after_body E self mode body w) ++ evs
       ++ [LockReleased (lock_path (_lock self)) mode]
     /\ none_of is_release evs = true)
  /\ dirs (snd (acquire_lock E oc self mode user body w))
     = dirs (after_body E self mode body w)
  /\ files (snd (acquire_lock E oc self mode user body w))
     = files (after_body E self mode body w)
  /\ held (snd (acquire_lock E oc self mode user body w))
     = unhold (lock_path (_lock self)) mode
         (held (after_body E self mode body w))
  /\ (held (after_body E self mode body w)
      = held (entered E (_lock self) mode w) ->
      held (snd (acquire_lock E oc self mode user body w)) = held w
      /\ locked (_lock self) (snd (acquire_lock E oc self mode user body w))
         = locked (_lock self) w).
Proof.
  intros Hlock.
  assert (Hshape : exists evs : list event,
             snd (acquire_lock E oc self mode user body w)
             = released (_lock self) mode
                 (log_events (after_body E self mode body w) evs)
             /\ none_of is_release evs = true).
  { destruct (body_result E self mode body w) as [[] | e] eqn:Hbody.
    - rewrite acquire_lock_body_returns by done. cbn [snd].
      destruct (execute_hook_frame E oc self mode user
                  (lock_file_of (_lock self) w)
                  (after_body E self mode body w)) as (evs & -> & Hevs).
      by exists evs.
    - exists []. rewrite (acquire_lock_body_raises E oc _ _ _ _ _ e) by done.
      by rewrite log_events_nil. }
  destruct Hshape as (evs & -> & Hevs).
  split.
  { exists evs. rewrite trace_released. simpl. by rewrite <- app_assoc. }
  split; [reflexivity |]. split; [reflexivity |]. split; [reflexivity |].
  intros Hheld.
  assert (Hback : held (released (_lock self) mode
                          (log_events (after_body E self mode body w) evs))
                  = held w).
  { by apply (held_released_entered E). }
  split; [exact Hback |]. unfold locked. by rewrite Hback.
Qed.

Lemma transaction_releases_on_every_path_witness :
  held (snd (acquire_lock (example_env WARNING (Raise KeyboardInterrupt))
               no_other_conversion example_storage Write (Some "alice")
               (ret tt) example_world))
  = []
  /\ locked (_lock example_storage)
       (snd (acquire_lock (example_env WARNING (Raise KeyboardInterrupt))
               no_other_conversion example_storage Write (Some "alice")
               (ret tt) example_world))
     = None.
Proof.
  exact (proj2 (proj2 (proj2 (proj2
           (transaction_releases_on_every_path
              (example_env WARNING (Raise KeyboardInterrupt))
              no_other_conversion example_storage Write (Some "alice")
              (ret tt) example_world eq_refl)))) eq_refl).
Defined.

(** ** The process group of the hook *)

(** X6.  On a POSIX host, once the hook was spawned, [os.killpg] is called
    exactly once, with the child's pid and SIGKILL, after the child was
    waited on (whether the wait ended or was interrupted) and before the
    lock is released; a warning is logged exactly when processes were left
    in the group and the logger lets warnings through.  The
    [ProcessLookupError] of an empty group never reaches the caller: the
    outcome is that of the wait and the exit status alone.  On other hosts
    [os.killpg] is not called and nothing is logged as a warning. *)
Theorem process_group_killed_after_wait
    (E : env) oc (self : storage) (user : option string) (body : M unit)
    (w : world) (cmd : string) (child : Z) :
  lock_fails E (lock_path (_lock self)) Write = None ->
  str_truthy (hook (storage_configuration self)) = true ->
  body_result E self Write body w = Ret tt ->
  hook_command oc self user = Ret cmd ->
  spawn E cmd (hook_popen_kwargs E self (lock_file_of (_lock self) w))
  = Ret child ->
  fst (acquire_lock E oc self Write user body w)
  = match run E child with
    | Ret (_, _, status) =>
        if status =? 0 then Ret tt
        else Raise (CalledProcessError (Some status) cmd)
    | Raise e => Raise e
    end
  /\ (os_name E = posix ->
      exists before after : list event,
        trace (snd (acquire_lock E oc self Write user body w))
        = trace (after_body E self Write body w) ++ before
          ++ [Killpg child SIGKILL] ++ after
          ++ [LockReleased (lock_path (_lock self)) Write]
        /\ existsb (reaps child) before = true
        /\ none_of is_killpg (before ++ after) = true
        /\ existsb is_warning (before ++ after)
           = group_alive E child && isEnabledFor E WARNING)
  /\ (os_name E <> posix ->
      exists evs : list event,
        trace (snd (acquire_lock E oc self Write user body w))
        = trace (after_body E self Write body w) ++ evs
        /\ none_of is_killpg evs = true
        /\ none_of is_warning evs = true).
Proof.
  intros Hlock Hhook Hbody Hcmd Hspawn.
  rewrite (acquire_lock_hook_runs E oc _ _ _ _ cmd child) by done.
  cbn [fst snd]. rewrite trace_released. simpl trace.
  split; [reflexivity |]. split.
  - intros Hos.
    exists (debug_events E "Running hook"
            ++ [Popen cmd
                  (hook_popen_kwargs E self (lock_file_of (_lock self) w))
                  (Some child)]
            ++ wait_events E child),
      ((if group_alive E child && isEnabledFor E WARNING
        then [LogWarning "Killed remaining child processes of hook"]
        else [])
       ++ captured_events E child).
    unfold hook_events, cleanup_events. rewrite Hos. cbn [os_eqb].
    split; [by rewrite <- !app_assoc |].
    unfold none_of.
    unfold debug_events, wait_events, captured_events.
    destruct (run E child) as [[[out err] status] | e],
      (isEnabledFor E DEBUG), (group_alive E child),
      (isEnabledFor E WARNING), (os_eqb (os_name E) posix);
      simpl; rewrite ?Z.eqb_refl;
      try destruct (str_truthy out); try destruct (str_truthy err);
      by simpl.
  - intros Hos.
    exists (hook_events E cmd
              (hook_popen_kwargs E self (lock_file_of (_lock self) w)) child
            ++ [LockReleased (lock_path (_lock self)) Write]).
    split; [by rewrite <- app_assoc |].
    unfold hook_events, cleanup_events.
    replace (os_eqb (os_name E) posix) with false
      by by destruct (os_name E).
    unfold none_of, debug_events, wait_events, captured_events.
    destruct (run E child) as [[[out err] status] | e],
      (isEnabledFor E DEBUG);
      simpl;
      try destruct (str_truthy out); try destruct (str_truthy err);
      by simpl.
Qed.

Lemma process_group_killed_after_wait_witness :
  exists before after : list event,
    trace (snd (acquire_lock
                  (host posix WARNING (fun _ _ => None) (fun _ => None)
                     (Ret 4711) (Ret ("", "", 0)) true)
                  no_other_conversion example_storage Write (Some "alice")
                  (ret tt) example_world))
    = [LockAcquired "/srv/radicale/.Radicale.lock" Write] ++ before
      ++ [Killpg 4711 SIGKILL] ++ after
      ++ [LockReleased "/srv/radicale/.Radicale.lock" Write]
    /\ existsb (reaps 4711) before = true
    /\ none_of is_killpg (before ++ after) = true
    /\ existsb is_warning (before ++ after) = true.
Proof.
  exact (proj1 (proj2 (process_group_killed_after_wait
                  (host posix WARNING (fun _ _ => None) (fun _ => None)
                     (Ret 4711) (Ret ("", "", 0)) true)
                  no_other_conversion example_storage (Some "alice") (ret tt)
                  example_world "echo alice > out.txt" 4711
                  eq_refl eq_refl eq_refl eq_refl eq_refl)) eq_refl).
Defined.

(** Whether or not the spawn succeeds, [Popen] is called once. *)
Lemma one_popen_call (E : env) oc self user body w cmd :
  lock_fails E (lock_path (_lock self)) Write = None ->
  str_truthy (hook (storage_configuration self)) = true ->
  body_result E self Write body w = Ret tt ->
  hook_command oc self user = Ret cmd ->
  exists spawned : option Z,
    spawns (trace (snd (acquire_lock E oc self Write user body w)))
    = spawns (trace (after_body E self Write body w))
      ++ [Popen cmd (hook_popen_kwargs E self (lock_file_of (_lock self) w))
            spawned].
Proof.
  intros Hlock Hhook Hbody Hcmd.
  destruct (spawn E cmd
              (hook_popen_kwargs E self (lock_file_of (_lock self) w)))
    as [child | e] eqn:Hspawn.
  - exists (Some child).
    rewrite (acquire_lock_hook_runs E oc _ _ _ _ cmd child) by done.
    cbn [snd]. rewrite trace_released. simpl trace.
    rewrite !spawns_app, hook_events_one_spawn. simpl.
    by rewrite ?app_nil_r.
  - exists None.
    rewrite acquire_lock_body_returns by done.
    rewrite (execute_hook_spawn_error E oc _ _ _ _ cmd e) by done.
    cbn [snd]. rewrite trace_released. simpl trace.
    rewrite !spawns_app. unfold debug_events.
    destruct (isEnabledFor E DEBUG); simpl; by rewrite ?app_nil_r.
Qed.

(** X7.  The hook is spawned in text mode and set apart from the caller
    as the platform allows.  On POSIX the child inherits exactly one extra
    descriptor, the one of the lock file this transaction holds, and is put
    in a process group of its own by [os.setpgrp]; on Windows it gets the
    flag CREATE_NEW_PROCESS_GROUP and no descriptor is passed; on any other
    platform none of the three is set. *)
Theorem hook_isolated_as_platform_allows
    (E : env) oc (self : storage) (user : option string) (body : M unit)
    (w : world) (cmd : string) (lf : lock_file) :
  lock_fails E (lock_path (_lock self)) Write = None ->
  str_truthy (hook (storage_configuration self)) = true ->
  body_result E self Write body w = Ret tt ->
  hook_command oc self user = Ret cmd ->
  fst (RwLock_enter E (_lock self) Write w) = Ret lf ->
  exists (spawned : option Z) (kw : popen_kwargs),
    spawns (trace (snd (acquire_lock E oc self Write user body w)))
    = spawns (trace (after_body E self Write body w))
      ++ [Popen cmd kw spawned]
    /\ universal_newlines kw = true
    /\ (os_name E = posix ->
        pass_fds kw = Some [fileno lf]
        /\ preexec_fn kw = Some setpgrp /\ creationflags kw = None)
    /\ (os_name E = nt ->
        pass_fds kw = None
        /\ preexec_fn kw = None
        /\ creationflags kw = Some CREATE_NEW_PROCESS_GROUP)
    /\ (os_name E = other_os ->
        pass_fds kw = None /\ preexec_fn kw = None /\ creationflags kw = None).
Proof.
  intros Hlock Hhook Hbody Hcmd Hlf.
  destruct (one_popen_call E oc self user body w cmd Hlock Hhook Hbody Hcmd)
    as [spawned Hspawns].
  exists spawned, (hook_popen_kwargs E self (lock_file_of (_lock self) w)).
  split; [exact Hspawns |].
  unfold RwLock_enter in Hlf. rewrite Hlock in Hlf. simpl in Hlf.
  injection Hlf as <-.
  unfold hook_popen_kwargs.
  split; [by destruct (os_name E) |].
  repeat split; by rewrite H.
Qed.

Lemma hook_isolated_as_platform_allows_witness :
  exists (spawned : option Z) (kw : popen_kwargs),
    spawns (trace (snd (acquire_lock
                          (host nt WARNING (fun _ _ => None) (fun _ => None)
                             (Ret 4711) (Ret ("", "", 0)) false)
                          no_other_conversion example_storage Write
                          (Some "alice") (ret tt) example_world)))
    = spawns [LockAcquired "/srv/radicale/.Radicale.lock" Write]
      ++ [Popen "echo alice > out.txt" kw spawned]
    /\ pass_fds kw = None
    /\ preexec_fn kw = None
    /\ creationflags kw = Some CREATE_NEW_PROCESS_GROUP.
Proof.
  destruct (hook_isolated_as_platform_allows
              (host nt WARNING (fun _ _ => None) (fun _ => None)
                 (Ret 4711) (Ret ("", "", 0)) false)
              no_other_conversion example_storage (Some "alice") (ret tt)
              example_world "echo alice > out.txt"
              (lock_file_of (_lock example_storage) example_world)
              eq_refl eq_refl eq_refl eq_refl eq_refl)
    as (spawned & kw & Hspawns & _ & _ & Hnt & _).
  exists spawned, kw. split; [exact Hspawns | exact (Hnt eq_refl)].
Defined.

(** ** The cache lock inside transactions *)

Lemma cache_lock_inside_write_transaction_witness :
  acquire_lock (example_env DEBUG (Ret ("pushed", "", 0)))
    no_other_conversion (_storage example_collection) Write (Some "alice")
    (cm <- _acquire_cache_lock (example_env DEBUG (Ret ("pushed", "", 0)))
             example_collection "sync-token" ;;
     with_ (example_env DEBUG (Ret ("pushed", "", 0))) cm
       (emit (LogDebug "body")))%py
    example_world
  = acquire_lock (example_env DEBUG (Ret ("pushed", "", 0)))
      no_other_conversion (_storage example_collection) Write (Some "alice")
      (emit (LogDebug "body")) example_world.
Proof.
  exact (cache_lock_inside_write_transaction
           (example_env DEBUG (Ret ("pushed", "", 0))) no_other_conversion
           example_collection "sync-token" (Some "alice")
           (emit (LogDebug "body")) example_world eq_refl).
Defined.

Lemma acquire_cache_lock_taken (E : env) (self : collection) (ns : string)
    (w : world) :
  locked (_lock (_storage self)) w <> Some Write ->
  makedirs_fails E (cache_folder_of self) = None ->
  _acquire_cache_lock E self ns w
  = (Ret (RwLock_acquire (cache_lock self ns) Write),
     snd (_makedirs_synced E (cache_folder_of self) w)).
Proof.
  intros Hlocked Hmk. unfold _acquire_cache_lock.
  destruct (locked (_lock (_storage self)) w) as [[|] |]; try done;
    unfold bind, _makedirs_synced; rewrite Hmk; reflexivity.
Qed.

(** X8.  In a read transaction the cache lock is taken, and the two locks
    nest: the storage lock is entered in read mode, the cache directory is
    created, the cache lock is entered in write mode, the inner body runs,
    and then the cache lock is released before the storage lock.  The
    outcome is the inner body's, and no hook is run. *)
Theorem cache_lock_nested_in_read_transaction
    (E : env) oc (self : collection) (ns : string) (user : option string)
    (inner : M unit) (w : world) :
  lock_fails E (lock_path (_lock (_storage self))) Read = None ->
  makedirs_fails E (cache_folder_of self) = None ->
  lock_fails E (cache_lock_path self ns) Write = None ->
  acquire_lock E oc (_storage self) Read user
    (cm <- _acquire_cache_lock E self ns ;; with_ E cm inner)%py w
  = (fst (inner (cache_entered E self ns
                   (entered E (_lock (_storage self)) Read w))),
     released (_lock (_storage self)) Read
       (released (cache_lock self ns) Write
          (snd (inner (cache_entered E self ns
                         (entered E (_lock (_storage self)) Read w))))))
  /\ trace (cache_entered E self ns
              (entered E (_lock (_storage self)) Read w))
     = trace w
       ++ [LockAcquired (lock_path (_lock (_storage self))) Read;
           MakedirsSynced (cache_folder_of self);
           LockAcquired (cache_lock_path self ns) Write]
  /\ trace (snd (acquire_lock E oc (_storage self) Read user
                   (cm <- _acquire_cache_lock E self ns ;;
                    with_ E cm inner)%py w))
     = trace (snd (inner (cache_entered E self ns
                            (entered E (_lock (_storage self)) Read w))))
       ++ [LockReleased (cache_lock_path self ns) Write;
           LockReleased (lock_path (_lock (_storage self))) Read].
Proof.
  intros Hlock Hmk Hcache.
  assert (Hrun : acquire_lock E oc (_storage self) Read user
                   (cm <- _acquire_cache_lock E self ns ;;
                    with_ E cm inner)%py w
                 = (fst (inner (cache_entered E self ns
                                  (entered E (_lock (_storage self)) Read w))),
                    released (_lock (_storage self)) Read
                      (released (cache_lock self ns) Write
                         (snd (inner (cache_entered E self ns
                                 (entered E (_lock (_storage self)) Read
                                    w))))))).
  { assert (Hbody : (cm <- _acquire_cache_lock E self ns ;;
                      with_ E cm inner)%py
                       (entered E (_lock (_storage self)) Read w)
                     = (fst (inner (cache_entered E self ns
                                (entered E (_lock (_storage self)) Read w))),
                        released (cache_lock self ns) Write
                          (snd (inner (cache_entered E self ns
                                  (entered E (_lock (_storage self)) Read
                                     w)))))).
    { unfold bind.
      rewrite acquire_cache_lock_taken;
        [| by rewrite locked_entered | done].
      cbn [with_].
      by rewrite (with_lock_entered E (cache_lock self ns)). }
    destruct (fst (inner (cache_entered E self ns
                            (entered E (_lock (_storage self)) Read w))))
      as [[] | e] eqn:Hinner.
    - rewrite acquire_lock_body_returns;
        [| done | unfold body_result; by rewrite Hbody].
      unfold after_body. rewrite Hbody. cbn [snd].
      by rewrite execute_hook_skipped by by left.
    - rewrite (acquire_lock_body_raises E oc _ _ _ _ _ e);
        [| done | unfold body_result; by rewrite Hbody].
      unfold after_body. by rewrite Hbody. }
  rewrite Hrun. split; [reflexivity |]. split.
  - unfold cache_entered.
    rewrite (trace_entered E (cache_lock self ns)) by done.
    unfold _makedirs_synced. rewrite Hmk. simpl.
    rewrite trace_entered by done. by rewrite <- !app_assoc.
  - cbn [snd]. rewrite !trace_released. by rewrite <- app_assoc.
Qed.

Lemma cache_lock_nested_in_read_transaction_witness :
  trace (snd (acquire_lock (example_env DEBUG (Ret ("", "", 0)))
                no_other_conversion (_storage example_collection) Read None
                (cm <- _acquire_cache_lock
                         (example_env DEBUG (Ret ("", "", 0)))
                         example_collection "sync-token" ;;
                 with_ (example_env DEBUG (Ret ("", "", 0))) cm (ret tt))%py
                example_world))
  = trace (cache_entered (example_env DEBUG (Ret ("", "", 0)))
             example_collection "sync-token"
             (entered (example_env DEBUG (Ret ("", "", 0)))
                (_lock (_storage example_collection)) Read example_world))
    ++ [LockReleased (cache_lock_path example_collection "sync-token") Write;
        LockReleased (lock_path (_lock (_storage example_collection))) Read].
Proof.
  exact (proj2 (proj2 (cache_lock_nested_in_read_transaction
                  (example_env DEBUG (Ret ("", "", 0))) no_other_conversion
                  example_collection "sync-token" None (ret tt) example_world
                  eq_refl eq_refl eq_refl))).
Defined.

(** X9.  A [with] block over the cache lock passes on the failures of its
    two steps and does not start the body: when the cache directory cannot
    be created nothing has happened; when the cache lock cannot be taken
    the directory has been created and no lock is held. *)
Theorem cache_lock_failures_propagate
    (E : env) (self : collection) (ns : string) (body : M unit) (w : world)
    (e : exn) :
  locked (_lock (_storage self)) w <> Some Write ->
  (makedirs_fails E (cache_folder_of self) = Some e ->
   (cm <- _acquire_cache_lock E self ns ;; with_ E cm body)%py w
   = (Raise e, w))
  /\ (makedirs_fails E (cache_folder_of self) = None ->
      lock_fails E (cache_lock_path self ns) Write = Some e ->
      (cm <- _acquire_cache_lock E self ns ;; with_ E cm body)%py w
      = (Raise e, snd (_makedirs_synced E (cache_folder_of self) w))
      /\ trace (snd (_makedirs_synced E (cache_folder_of self) w))
         = trace w ++ [MakedirsSynced (cache_folder_of self)]
      /\ held (snd (_makedirs_synced E (cache_folder_of self) w)) = held w
      /\ files (snd (_makedirs_synced E (cache_folder_of self) w))
         = files w).
Proof.
  intros Hlocked. split.
  - intros Hmk. unfold bind at 1, _acquire_cache_lock.
    destruct (locked (_lock (_storage self)) w) as [[|] |]; try done;
      unfold bind, _makedirs_synced; by rewrite Hmk.
  - intros Hmk Hcache. split.
    + unfold bind. rewrite acquire_cache_lock_taken by done.
      cbn [with_]. by apply (with_lock_fails E (cache_lock self ns)).
    + unfold _makedirs_synced. by rewrite Hmk.
Qed.

Lemma cache_lock_failures_propagate_witness :
  (cm <- _acquire_cache_lock
           (host posix DEBUG (fun _ _ => None) (fun _ => Some MakedirsError)
              (Ret 4711) (Ret ("", "", 0)) false)
           example_collection "sync-token" ;;
   with_ (host posix DEBUG (fun _ _ => None) (fun _ => Some MakedirsError)
            (Ret 4711) (Ret ("", "", 0)) false)
     cm (emit (LogDebug "body")))%py example_world
  = (Raise MakedirsError, example_world).
Proof.
  exact (proj1 (cache_lock_failures_propagate
                  (host posix DEBUG (fun _ _ => None)
                     (fun _ => Some MakedirsError) (Ret 4711)
                     (Ret ("", "", 0)) false)
                  example_collection "sync-token" (emit (LogDebug "body"))
                  example_world MakedirsError ltac:(discriminate)) eq_refl).
Defined.

(** ** The lock files *)

Lemma length_append a b :
  String.length (a +:+ b) = (String.length a + String.length b)%nat.
Proof.
  induction a as [| c a IH]; [reflexivity |].
  rewrite append_cons. simpl. by rewrite IH.
Qed.

(** X11.  For a collection that lies under the storage folder, no cache
    lock file is the lock file of the storage, whatever the namespace:
    taking the cache lock inside a read transaction never asks for the
    file the transaction already holds. *)
Theorem cache_lock_is_not_the_storage_lock
    (c : configuration) (self : collection) (ns rest : string) :
  _storage self = StorageLockMixin_init c ->
  _filesystem_path self = filesystem_folder c +:+ rest ->
  cache_lock_path self ns <> lock_path (_lock (_storage self)).
Proof.
  intros -> Hpath Heq. apply (f_equal String.length) in Heq.
  rewrite cache_lock_path_inside in Heq.
  unfold cache_folder_of in Heq. rewrite Hpath in Heq.
  cbn [StorageLockMixin_init _lock lock_path] in Heq.
  destruct (os_path_join_relative (filesystem_folder c +:+ rest)
              ".Radicale.cache" eq_refl) as [Hcache | Hcache];
    destruct (os_path_join_relative (filesystem_folder c) ".Radicale.lock"
                eq_refl) as [Hlock | Hlock];
    rewrite Hcache, Hlock in Heq; rewrite !length_append in Heq;
    simpl in Heq; lia.
Qed.

Lemma cache_lock_is_not_the_storage_lock_witness :
  _filesystem_path example_collection
  = filesystem_folder example_configuration
    +:+ "/collection-root/alice/calendar"
  /\ cache_lock_path example_collection EmptyString
     <> lock_path (_lock (_storage example_collection)).
Proof.
  split; [reflexivity |].
  exact (cache_lock_is_not_the_storage_lock example_configuration
           example_collection EmptyString "/collection-root/alice/calendar"
           eq_refl eq_refl).
Defined.

(** ** The user in the command *)

Lemma append_inj_r x y p : x +:+ p = y +:+ p -> x = y.
Proof.
  revert y. induction x as [| c x IH]; intros [| d y] H.
  - reflexivity.
  - apply (f_equal String.length) in H. rewrite !length_append in H.
    simpl in H. lia.
  - apply (f_equal String.length) in H. rewrite !length_append in H.
    simpl in H. lia.
  - rewrite !append_cons in H. injection H as -> H. f_equal. by apply IH.
Qed.

Lemma replace_squote_inj s s' :
  shlex.replace_squote s = shlex.replace_squote s' -> s = s'.
Proof.
  revert s'. induction s as [| c s IH]; intros [| c' s'] H; simpl in H.
  - reflexivity.
  - by destruct (Ascii.eqb c' shlex.squote).
  - by destruct (Ascii.eqb c shlex.squote).
  - destruct (Ascii.eqb_spec c shlex.squote) as [-> | Hc],
      (Ascii.eqb_spec c' shlex.squote) as [-> | Hc'].
    + injection H as H. f_equal. by apply IH.
    + injection H as H _. by subst c'.
    + injection H as H _. by subst c.
    + injection H as -> H. f_equal. by apply IH.
Qed.

Lemma safe_not_squote c s :
  shlex.find_unsafe (String c s) = false -> c <> shlex.squote.
Proof. intros H ->. discriminate H. Qed.

Lemma quote_inj s s' : shlex.quote s = shlex.quote s' -> s = s'.
Proof.
  unfold shlex.quote.
  destruct s as [| c s], s' as [| c' s']; cbn [str_truthy negb].
  - done.
  - destruct (shlex.find_unsafe (String c' s')) eqn:Hsafe; cbn [negb].
    + cbn [shlex.replace_squote].
      destruct (Ascii.eqb c' shlex.squote); rewrite !append_cons;
        intros [= H]; by destruct (shlex.replace_squote s').
    + intros [= <- _]. by apply safe_not_squote in Hsafe.
  - destruct (shlex.find_unsafe (String c s)) eqn:Hsafe; cbn [negb].
    + cbn [shlex.replace_squote].
      destruct (Ascii.eqb c shlex.squote); rewrite !append_cons;
        intros [= H]; by destruct (shlex.replace_squote s).
    + intros [= -> _]. by apply safe_not_squote in Hsafe.
  - destruct (shlex.find_unsafe (String c s)) eqn:Hsafe,
      (shlex.find_unsafe (String c' s')) eqn:Hsafe'; cbn [negb].
    + intros [= H]. apply append_inj_r in H. by apply replace_squote_inj.
    + intros [= <- _]. by apply safe_not_squote in Hsafe'.
    + intros [= -> _]. by apply safe_not_squote in Hsafe.
    + done.
Qed.

(** X12.  For a template with one [%(user)s] and no other conversion, two
    transactions run the same command line exactly when they act for the
    same user, where no user, the empty user name and the user name
    Anonymous count as the same: different user names are never merged by
    the quoting. *)
Theorem hook_command_tells_users_apart
    oc (self : storage) (user user' : option string) (pre post : string) :
  hook (storage_configuration self) = pre +:+ "%(user)s" +:+ post ->
  no_percent pre = true ->
  no_percent post = true ->
  hook_command oc self user = hook_command oc self user'
  <-> py_or user "Anonymous" = py_or user' "Anonymous".
Proof.
  intros Hfmt Hpre Hpost. unfold hook_command. rewrite Hfmt.
  rewrite !format_substitutes by done. split.
  - intros [= H]. apply append_inj_l, append_inj_r in H.
    by apply quote_inj.
  - by intros ->.
Qed.

Lemma hook_command_tells_users_apart_witness :
  hook_command no_other_conversion example_storage (Some "alice")
  = hook_command no_other_conversion example_storage (Some "bob")
  <-> py_or (Some "alice") "Anonymous" = py_or (Some "bob") "Anonymous".
Proof.
  exact (hook_command_tells_users_apart no_other_conversion example_storage
           (Some "alice") (Some "bob") "echo " " > out.txt"
           eq_refl eq_refl eq_refl).
Defined.

(** ** The shell's reading of some command lines *)

Example tokens_words :
  sh_tokens "echo alice  smith"
  = Some [Word "echo"; Word "alice"; Word "smith"].
Proof. reflexivity. Qed.

Example tokens_quoted_pieces :
  sh_tokens "echo pre'a b'post ''"
  = Some [Word "echo"; Word "prea bpost"; Word EmptyString].
Proof. reflexivity. Qed.

Example tokens_expansion : sh_tokens "echo $(reboot)" = None.
Proof. reflexivity. Qed.

Example tokens_separator : sh_tokens "echo alice; reboot" = None.
Proof. reflexivity. Qed.

Example tokens_descriptor_number : sh_tokens "echo 2> out.txt" = None.
Proof. reflexivity. Qed.

Example tokens_open_quote : sh_tokens "echo 'alice" = None.
Proof. reflexivity. Qed.

Example tokens_quoted_command :
  sh_tokens example_quoted_command
  = Some [Word "echo"; Word "o'brien; reboot"; Redirect ">"; Word "out.txt"].
Proof. reflexivity. Qed.
